(** * robotin-control: the query pipeline, embedded and verified

    A shallow embedding of the query pipeline of robotin-control
    (query analyzer, retrieval service, prompt builder, LLM service,
    response processor, query engine) together with the properties its
    specification states about it.

    Conventions of the embedding.
    - A JavaScript string is a [string]: a sequence of UTF-16 code units,
      restricted to the code units below 256 (one [ascii] per code unit).
    - A JavaScript number that carries a score, relevance or weight is a
      binary64 [float]; counts, ranks, lengths and token estimates are
      natural numbers.
    - An optional property is an [option]; a property explicitly set to
      [undefined] is identified with an absent one.
    - A call that may throw returns an [Outcome]; logging is not modelled. *)

From Stdlib Require Import Bool Arith ZArith NArith List String Ascii Lia.
From Stdlib Require Import Floats Uint63 DecimalString HexadecimalString.
From Stdlib Require Import Permutation Sorted.
Import ListNotations.

Set Warnings "-inexact-float,-abstract-large-number".
Local Open Scope string_scope.
Local Open Scope list_scope.
Local Open Scope nat_scope.

(** ** JavaScript built-ins used by the pipeline *)

Module JS.

(** A thrown [Error] is represented by its message. *)
Inductive Outcome (A : Type) : Type :=
| Returns (a : A)
| Throws (message : string).
Arguments Returns {A} a.
Arguments Throws {A} message.

Definition bind {A B : Type} (m : Outcome A) (k : A -> Outcome B) : Outcome B :=
  match m with
  | Returns a => k a
  | Throws e => Throws e
  end.

Definition nl : string := String (ascii_of_nat 10) EmptyString.
Definition dquote : string := String (ascii_of_nat 34) EmptyString.
Definition backtick : string := String (ascii_of_nat 96) EmptyString.

Definition charCode (c : ascii) : nat := nat_of_ascii c.

Definition between (lo hi n : nat) : bool := (lo <=? n) && (n <=? hi).

(** [String.prototype.toLowerCase] on code units below 256: the basic Latin
    capitals and the Latin-1 capitals (all of 192..222 but the
    multiplication sign 215) move 32 places up. *)
Definition lowerChar (c : ascii) : ascii :=
  let n := charCode c in
  if between 65 90 n || (between 192 222 n && negb (n =? 215))
  then ascii_of_nat (n + 32)
  else c.

Fixpoint toLowerCase (s : string) : string :=
  match s with
  | EmptyString => EmptyString
  | String c r => String (lowerChar c) (toLowerCase r)
  end.

(** [s.includes(needle)] *)
Fixpoint includes (s needle : string) : bool :=
  String.prefix needle s ||
  match s with
  | EmptyString => false
  | String _ r => includes r needle
  end.

(** The regular-expression class [\s] and the white space removed by
    [trim], below code unit 256: TAB, LF, VT, FF, CR, SPACE, NBSP. *)
Definition isSpace (c : ascii) : bool :=
  let n := charCode c in
  between 9 13 n || (n =? 32) || (n =? 160).

Definition isDigit (c : ascii) : bool := between 48 57 (charCode c).

(** The regular-expression class [\w]. *)
Definition isWordChar (c : ascii) : bool :=
  let n := charCode c in
  between 48 57 n || between 65 90 n || between 97 122 n || (n =? 95).

Fixpoint trimStart (s : string) : string :=
  match s with
  | EmptyString => EmptyString
  | String c r => if isSpace c then trimStart r else s
  end.

Fixpoint trimEnd (s : string) : string :=
  match s with
  | EmptyString => EmptyString
  | String c r =>
      match trimEnd r with
      | EmptyString => if isSpace c then EmptyString else String c EmptyString
      | r' => String c r'
      end
  end.

Definition trim (s : string) : string := trimEnd (trimStart s).

(** [s.replace(/\s+/g, ' ')]; [inRun] tells that the previous code unit
    was white space already replaced. *)
Fixpoint collapseFrom (inRun : bool) (s : string) : string :=
  match s with
  | EmptyString => EmptyString
  | String c r =>
      if isSpace c
      then if inRun then collapseFrom true r else String " " (collapseFrom true r)
      else String c (collapseFrom false r)
  end.

Definition collapseWhitespace (s : string) : string := collapseFrom false s.

(** [s.slice(0, n)] for a count [n]. *)
Definition sliceTo (n : nat) (s : string) : string := String.substring 0 n s.

Fixpoint dropChars (n : nat) (s : string) : string :=
  match n, s with
  | S n', String _ r => dropChars n' r
  | _, _ => s
  end.

(** [parts.join(sep)] *)
Fixpoint join (sep : string) (parts : list string) : string :=
  match parts with
  | [] => EmptyString
  | [p] => p
  | p :: rest => p ++ sep ++ join sep rest
  end.

(** [Math.ceil(n / d)] for a length [n] and a positive integer [d]. *)
Definition ceilDiv (n d : nat) : nat := (n + (d - 1)) / d.

(** The number value of a count. *)
Definition numberOfNat (n : nat) : float :=
  PrimFloat.of_uint63 (Uint63.of_Z (Z.of_nat n)).

(** [a > b] on numbers. *)
Definition gt (a b : float) : bool := PrimFloat.ltb b a.

(** [a >= b] on numbers. *)
Definition ge (a b : float) : bool := PrimFloat.leb b a.

(** [Math.min(a, b)] and [Math.max(a, b)]: NaN if either argument is NaN,
    and -0 is smaller than +0. *)
Definition isNegZero (a : float) : bool :=
  PrimFloat.eqb a 0%float && PrimFloat.ltb (PrimFloat.div 1%float a) 0%float.

Definition Math_min (a b : float) : float :=
  if PrimFloat.is_nan a then a
  else if PrimFloat.is_nan b then b
  else if PrimFloat.ltb a b then a
  else if PrimFloat.ltb b a then b
  else if isNegZero a then a else b.

Definition Math_max (a b : float) : float :=
  if PrimFloat.is_nan a then a
  else if PrimFloat.is_nan b then b
  else if PrimFloat.ltb a b then b
  else if PrimFloat.ltb b a then a
  else if isNegZero a then b else a.

(** [ToInt32]: the two's-complement value of the low 32 bits. *)
Definition toInt32 (z : Z) : Z :=
  ((z + 2147483648) mod 4294967296 - 2147483648)%Z.

(** [n.toString(16)] for an integer [n]. *)
Definition toHexString (z : Z) : string :=
  HexadecimalString.NilZero.string_of_int (Z.to_hex_int z).

(** [parseInt(digits, 10)] on a non-empty string of decimal digits. *)
Definition digitValue (c : ascii) : N := N.of_nat (charCode c - 48).

Fixpoint parseDigitsFrom (acc : N) (s : string) : N :=
  match s with
  | EmptyString => acc
  | String c r => parseDigitsFrom (acc * 10 + digitValue c)%N r
  end.

Definition parseInt (digits : string) : N := parseDigitsFrom 0%N digits.

(** Stable insertion sort, the result of [Array.prototype.sort] for a
    consistent comparator; [after a b] tells that the comparator is
    positive on [(a, b)], that is, [b] has to come before [a]. *)
Section Sort.
Context {A : Type} (after : A -> A -> bool).

Fixpoint insertSorted (x : A) (l : list A) : list A :=
  match l with
  | [] => [x]
  | y :: r => if after x y then y :: insertSorted x r else x :: y :: r
  end.

Definition sort (l : list A) : list A := fold_right insertSorted [] l.
End Sort.

(** The decimal digits of a count. *)
Definition natToString (n : nat) : string :=
  DecimalString.NilZero.string_of_uint (Nat.to_uint n).

(** [x.toFixed(1)] for a number of magnitude below 10^21 (beyond it
    JavaScript switches to exponent notation, which is not rendered here):
    the integer [n] nearest to [10 * |x|], the larger one on a tie, printed
    with its last digit after the point. *)
Definition toFixed1 (x : float) : string :=
  match Prim2SF x with
  | S754_nan => "NaN"
  | S754_infinity s => if s then "-Infinity" else "Infinity"
  | S754_zero _ => "0.0"
  | S754_finite s m e =>
      let n :=
        if (0 <=? e)%Z
        then (10 * Z.pos m * 2 ^ e)%Z
        else ((20 * Z.pos m + 2 ^ (- e)) / 2 ^ (1 - e))%Z in
      (if s then "-" else EmptyString)
      ++ natToString (Z.to_nat (n / 10)) ++ "." ++ natToString (Z.to_nat (n mod 10))
  end.

End JS.

(** ** Data model *)

(** [models/types]: the document types. *)
Inductive DocumentType : Type := txt | openapi | plantuml.

Definition documentTypeName (t : DocumentType) : string :=
  match t with
  | txt => "txt"
  | openapi => "openapi"
  | plantuml => "plantuml"
  end.

Definition DocumentType_eqb (a b : DocumentType) : bool :=
  match a, b with
  | txt, txt | openapi, openapi | plantuml, plantuml => true
  | _, _ => false
  end.

(** [query-analyzer]: the closed set of intents, in the order of the
    pattern table. *)
Inductive QueryIntent : Type :=
| definition | how_to | comparison | troubleshoot
| architecture | api_reference | example | general.

Definition QueryIntent_eqb (a b : QueryIntent) : bool :=
  match a, b with
  | definition, definition | how_to, how_to | comparison, comparison
  | troubleshoot, troubleshoot | architecture, architecture
  | api_reference, api_reference | example, example | general, general => true
  | _, _ => false
  end.

Module AnalyzedQuery.
Record t : Type := mk {
  original : string;
  normalized : string;
  intent : QueryIntent;
  keywords : list string;
  documentTypes : list DocumentType;
  requiresCode : bool;
  requiresDiagram : bool;
  confidence : float
}.
End AnalyzedQuery.

(** [vector.store]: a search result; the nested [metadata] object is
    flattened into the fields [documentType], [section] and [weight]. *)
Module SearchResult.
Record t : Type := mk {
  chunkId : string;
  documentId : string;
  projectId : string;
  content : string;
  relevance : float;
  documentType : DocumentType;
  section : option string;
  weight : float
}.
End SearchResult.

(** [retrieval.service]: [RetrievedChunk extends SearchResult]. *)
Module RetrievedChunk.
Record t : Type := mk {
  result : SearchResult.t;
  rank : nat;
  score : float;
  duplicateOf : option string
}.
Definition chunkId (c : t) : string := SearchResult.chunkId (result c).
Definition documentId (c : t) : string := SearchResult.documentId (result c).
Definition content (c : t) : string := SearchResult.content (result c).
Definition documentType (c : t) : DocumentType := SearchResult.documentType (result c).
Definition section (c : t) : option string := SearchResult.section (result c).
End RetrievedChunk.

(** [llm.service]: the provider tags and the response of a provider. *)
Inductive ProviderTag : Type := lmstudio | deepseek | kimi | openai.

Module LLMResponse.
Record t : Type := mk {
  content : string;
  tokensUsed : option nat;
  model : string;
  provider : ProviderTag
}.
End LLMResponse.

(** [response-processor]: citations, confidence levels, metadata. *)
Module SourceCitation.
Record t : Type := mk {
  number : N;
  chunkId : string;
  documentId : string;
  content : string;
  relevance : float
}.
End SourceCitation.

Inductive ConfidenceLevel : Type := high | medium | low | insufficient.

Module ResponseMetadata.
Record t : Type := mk {
  processingTimeMs : Z;
  chunksUsed : nat;
  tokensUsed : option nat;
  modelUsed : option string;
  hasCitations : bool;
  isGrounded : bool
}.
End ResponseMetadata.

Module ProcessedResponse.
Record t : Type := mk {
  answer : string;
  sources : list SourceCitation.t;
  confidence : ConfidenceLevel;
  metadata : ResponseMetadata.t
}.
End ProcessedResponse.

(** ** Response processor *)

Module ResponseProcessor.
Import JS.

(** The longest run of decimal digits at the start of [s], and what
    follows it. *)
Fixpoint takeDigits (s : string) : string * string :=
  match s with
  | String c r =>
      if isDigit c
      then let (ds, rest) := takeDigits r in (String c ds, rest)
      else (EmptyString, s)
  | EmptyString => (EmptyString, EmptyString)
  end.

(** A match of [/\[source:(\d+)\]/] at the very start of [s]: the digits
    of the group and the length of the match.  Taking all the digits is
    the only way to match, as a bracket has to follow them. *)
Definition markerAt (s : string) : option (string * nat) :=
  if String.prefix "[source:" s
  then
    let (ds, rest) := takeDigits (dropChars 8 s) in
    match ds, rest with
    | String _ _, String "]" _ => Some (ds, 8 + String.length ds + 1)
    | _, _ => None
    end
  else None.

(** [citedNumbers.add(n)] on a [Set] kept in insertion order. *)
Definition setAdd (n : N) (seen : list N) : list N :=
  if existsb (N.eqb n) seen then seen else seen ++ [n].

(** The [while ((match = citationRegex.exec(content)) !== null)] loop:
    matches are found left to right and do not overlap; [skip] counts the
    code units of the last match that are still to be passed. *)
Fixpoint scanMarkers (skip : nat) (s : string) (seen : list N) : list N :=
  match s with
  | EmptyString => seen
  | String _ r =>
      match skip with
      | S k => scanMarkers k r seen
      | O =>
          match markerAt s with
          | Some (ds, len) => scanMarkers (len - 1) r (setAdd (parseInt ds) seen)
          | None => scanMarkers 0 r seen
          end
      end
  end.

Definition citedNumbers (content : string) : list N := scanMarkers 0 content [].

(** [chunks[num - 1]] *)
Definition chunkAt (chunks : list RetrievedChunk.t) (num : N) : option RetrievedChunk.t :=
  match num with
  | N0 => None
  | Npos p => nth_error chunks (Pos.to_nat p - 1)
  end.

Definition excerpt (content : string) : string :=
  sliceTo 200 content ++ (if 200 <? String.length content then "..." else EmptyString).

Definition citationOf (chunks : list RetrievedChunk.t) (num : N) : list SourceCitation.t :=
  match chunkAt chunks num with
  | Some chunk =>
      [ SourceCitation.mk num
          (RetrievedChunk.chunkId chunk)
          (RetrievedChunk.documentId chunk)
          (excerpt (RetrievedChunk.content chunk))
          (RetrievedChunk.score chunk) ]
  | None => []
  end.

(** The comparator [(a, b) => a.number - b.number] is positive exactly
    when [b.number < a.number]. *)
Definition numberAfter (a b : SourceCitation.t) : bool :=
  (SourceCitation.number b <? SourceCitation.number a)%N.

Definition extractCitations (content : string) (chunks : list RetrievedChunk.t)
  : list SourceCitation.t :=
  sort numberAfter (flat_map (citationOf chunks) (citedNumbers content)).

(** The three explicit confidence statements. *)
Definition admissions : list string :=
  [ "i don't have enough information";
    "no relevant information";
    "not found in the documentation" ].

Definition admitsNoInformation (content : string) : bool :=
  existsb (includes (toLowerCase content)) admissions.

Definition uncertaintyMarkers : list string :=
  [ "might be"; "could be"; "possibly"; "perhaps"; "maybe";
    "i'm not sure"; "unclear"; "ambiguous"; "appears to" ].

Definition hasUncertainty (content : string) : bool :=
  existsb (includes (toLowerCase content)) uncertaintyMarkers.

(** [citations.reduce((sum, c) => sum + c.relevance, 0) / citations.length] *)
Definition avgRelevance (citations : list SourceCitation.t) : float :=
  PrimFloat.div
    (fold_left (fun sum c => PrimFloat.add sum (SourceCitation.relevance c)) citations 0%float)
    (numberOfNat (List.length citations)).

Definition levelOfScore (score : float) : ConfidenceLevel :=
  if ge score 0.8%float then high
  else if ge score 0.5%float then medium
  else if ge score 0.3%float then low
  else insufficient.

Definition determineConfidence (content : string) (citations : list SourceCitation.t)
  (chunks : list RetrievedChunk.t) : ConfidenceLevel :=
  if admitsNoInformation content then insufficient
  else
    let score := 0%float in
    let score := if 0 <? List.length citations then PrimFloat.add score 0.3%float else score in
    let avg := avgRelevance citations in
    let score :=
      if gt avg 0.8%float then PrimFloat.add score 0.3%float
      else if gt avg 0.6%float then PrimFloat.add score 0.2%float
      else score in
    let score :=
      if 3 <=? List.length citations then PrimFloat.add score 0.2%float
      else if 2 <=? List.length citations then PrimFloat.add score 0.1%float
      else score in
    let score := if negb (hasUncertainty content) then PrimFloat.add score 0.2%float else score in
    levelOfScore score.

Definition hallucinationMarkers : list string :=
  [ "according to my knowledge";
    "as an ai";
    "i believe";
    "in my opinion";
    "typically";
    "usually";
    "generally" ].

Definition checkGrounding (content : string) (citations : list SourceCitation.t) : bool :=
  match citations with
  | [] => false
  | _ :: _ => negb (existsb (includes (toLowerCase content)) hallucinationMarkers)
  end.

Definition cleanAnswer (content : string) : string := trim content.

Definition process (llmResponse : LLMResponse.t) (contextChunks : list RetrievedChunk.t)
  (processingTimeMs : Z) : ProcessedResponse.t :=
  let content := LLMResponse.content llmResponse in
  let citations := extractCitations content contextChunks in
  let confidence := determineConfidence content citations contextChunks in
  let isGrounded := checkGrounding content citations in
  let answer := cleanAnswer content in
  ProcessedResponse.mk answer citations confidence
    (ResponseMetadata.mk processingTimeMs (List.length contextChunks)
       (LLMResponse.tokensUsed llmResponse)
       (Some (LLMResponse.model llmResponse))
       (0 <? List.length citations)
       isGrounded).

Definition noInfoAnswer : string :=
  "I don't have enough information in the indexed documentation to answer that question."
  ++ nl ++ nl ++ "You can:" ++ nl
  ++ "1. Try rephrasing your question" ++ nl
  ++ "2. Add relevant documentation with " ++ backtick ++ "robotin add <file>" ++ backtick ++ nl
  ++ "3. Check if the topic exists under a different name".

Definition processNoInfoResponse (processingTimeMs : Z) : ProcessedResponse.t :=
  ProcessedResponse.mk noInfoAnswer [] insufficient
    (ResponseMetadata.mk processingTimeMs 0 None None false true).

End ResponseProcessor.

(** ** Regular expressions

    The fragment of JavaScript regular expressions the analyzer uses,
    with a backtracking matcher; [test] is [RegExp.prototype.test] for a
    pattern without flags. *)

Module Regex.
Import JS.

Inductive t : Type :=
| Lit (s : string)              (* a literal string *)
| Class (p : ascii -> bool)     (* a character class *)
| AnyStar                       (* .* *)
| Seq (a b : t)
| Alt (a b : t)
| Opt (a : t)                   (* a? *)
| Bol                           (* ^ *)
| Eol                           (* $ *)
| WordBoundary.                 (* \b *)

Definition isWordAt (c : option ascii) : bool :=
  match c with
  | Some a => isWordChar a
  | None => false
  end.

Definition headOf (s : string) : option ascii :=
  match s with
  | String c _ => Some c
  | EmptyString => None
  end.

(** [.] matches any code unit but a line terminator. *)
Definition isDotChar (c : ascii) : bool :=
  negb ((charCode c =? 10) || (charCode c =? 13)).

Section Matcher.
Variable k : option ascii -> string -> bool.

(** [prev] is the code unit before the current position, if any. *)
Fixpoint matchLit (l : string) (prev : option ascii) (s : string) : bool :=
  match l with
  | EmptyString => k prev s
  | String c l' =>
      match s with
      | String d s' => Ascii.eqb c d && matchLit l' (Some d) s'
      | EmptyString => false
      end
  end.

Fixpoint matchAnyStar (prev : option ascii) (s : string) : bool :=
  match s with
  | String c r => (isDotChar c && matchAnyStar (Some c) r) || k prev s
  | EmptyString => k prev s
  end.
End Matcher.

Fixpoint matchFrom (r : t) (prev : option ascii) (s : string)
  (k : option ascii -> string -> bool) : bool :=
  match r with
  | Lit l => matchLit k l prev s
  | Class p =>
      match s with
      | String c s' => p c && k (Some c) s'
      | EmptyString => false
      end
  | AnyStar => matchAnyStar k prev s
  | Seq a b => matchFrom a prev s (fun prev' s' => matchFrom b prev' s' k)
  | Alt a b => matchFrom a prev s k || matchFrom b prev s k
  | Opt a => matchFrom a prev s k || k prev s
  | Bol => match prev with None => k prev s | Some _ => false end
  | Eol => match s with EmptyString => k prev s | String _ _ => false end
  | WordBoundary => xorb (isWordAt prev) (isWordAt (headOf s)) && k prev s
  end.

Fixpoint searchFrom (r : t) (prev : option ascii) (s : string) : bool :=
  matchFrom r prev s (fun _ _ => true) ||
  match s with
  | String c s' => searchFrom r (Some c) s'
  | EmptyString => false
  end.

Definition test (r : t) (s : string) : bool := searchFrom r None s.

(** [(a|b|...)] *)
Fixpoint alts (rs : list t) : t :=
  match rs with
  | [] => Lit EmptyString
  | [r] => r
  | r :: rest => Alt r (alts rest)
  end.

Fixpoint seqs (rs : list t) : t :=
  match rs with
  | [] => Lit EmptyString
  | [r] => r
  | r :: rest => Seq r (seqs rest)
  end.

(** [(w1|w2|...)] for literal words. *)
Definition oneOf (ws : list string) : t := alts (map Lit ws).

(** [\b(...)\b] *)
Definition word (r : t) : t := seqs [WordBoundary; r; WordBoundary].

(** [^(...)] *)
Definition atStart (r : t) : t := Seq Bol r.

(** [w s?] such as [steps?] *)
Definition optS (w : string) : t := Seq (Lit w) (Opt (Lit "s")).

End Regex.

(** ** Query analyzer *)

Module QueryAnalyzer.
Import JS Regex.

Definition isTrailingPunctuation (c : ascii) : bool :=
  existsb (Ascii.eqb c) ["?"; "."; ","; "!"; ";"; ":"]%char.

(** [s.replace(/[?.,!;:]$/, '')] *)
Fixpoint dropTrailingPunctuation (s : string) : string :=
  match s with
  | EmptyString => EmptyString
  | String c EmptyString => if isTrailingPunctuation c then EmptyString else s
  | String c r => String c (dropTrailingPunctuation r)
  end.

Definition normalize (query : string) : string :=
  dropTrailingPunctuation (collapseWhitespace (trim (toLowerCase query))).

(** The ordered table of intent patterns. *)
Definition patterns : list (QueryIntent * list Regex.t) :=
  [ (definition,
      [ atStart (oneOf ["what is"; "what's"; "define"; "explain"; "describe"; "meaning of"]);
        word (oneOf ["definition"; "meaning"; "concept"]) ]);
    (how_to,
      [ atStart (alts [ Seq (Lit "how ") (oneOf ["do"; "can"; "to"]);
                        seqs [optS "step"; Lit " "; oneOf ["to"; "for"]];
                        Seq (Lit "guide ") (oneOf ["to"; "for"]);
                        Lit "tutorial" ]);
        word (oneOf ["install"; "setup"; "configure"; "implement"; "use"]) ]);
    (comparison,
      [ word (alts [ Lit "compare"; Lit "versus"; Lit "vs"; Lit "difference between";
                     Lit "similarities";
                     seqs [optS "pro"; Lit " and "; optS "con"] ]);
        word (alts [ Lit "better than"; Lit "worse than"; optS "advantage" ]) ]);
    (troubleshoot,
      [ word (oneOf ["error"; "bug"; "issue"; "problem"; "fail"; "crash"; "broken";
                     "not working"; "doesn't work"]);
        word (oneOf ["fix"; "solve"; "debug"; "troubleshoot"; "resolve"]) ]);
    (architecture,
      [ word (alts [ Lit "architecture"; Lit "structure"; Lit "design";
                     optS "component"; optS "module"; Lit "system" ]);
        word (seqs [ Lit "how "; oneOf ["is"; "does"]; Lit " "; AnyStar; Lit " ";
                     oneOf ["work"; "organized"; "structured"] ]);
        word (oneOf ["data flow"; "interaction"; "relationship"]) ]);
    (api_reference,
      [ word (oneOf ["api"; "endpoint"; "method"; "function"; "class"; "interface";
                     "parameter"; "return"]);
        word (oneOf ["request"; "response"; "json"; "schema"; "type"]) ]);
    (example,
      [ word (oneOf ["example"; "sample"; "demo"; "show me"; "snippet"; "code"]);
        word (Seq (Lit "how to ") (oneOf ["write"; "create"; "make"])) ]);
    (general, [ AnyStar ]) ].

Fixpoint firstIntent (table : list (QueryIntent * list Regex.t)) (query : string)
  : QueryIntent :=
  match table with
  | [] => general
  | (intent, regexes) :: rest =>
      if existsb (fun regex => test regex query) regexes
      then intent
      else firstIntent rest query
  end.

Definition detectIntent (query : string) : QueryIntent := firstIntent patterns query.

Definition stopWords : list string :=
  [ "a"; "an"; "the"; "is"; "are"; "was"; "were"; "be"; "been";
    "being"; "have"; "has"; "had"; "do"; "does"; "did"; "will";
    "would"; "could"; "should"; "may"; "might"; "must"; "shall";
    "can"; "need"; "dare"; "ought"; "used"; "to"; "of"; "in";
    "for"; "on"; "with"; "at"; "by"; "from"; "as"; "into";
    "through"; "during"; "before"; "after"; "above"; "below";
    "between"; "under"; "and"; "but"; "or"; "yet"; "so" ].

(** [s.split(/\s+/)]; [cur] is the piece being read. *)
Fixpoint splitFrom (inRun : bool) (cur : string) (s : string) : list string :=
  match s with
  | EmptyString => [cur]
  | String c r =>
      if isSpace c
      then if inRun then splitFrom true cur r else cur :: splitFrom true EmptyString r
      else splitFrom false (cur ++ String c EmptyString) r
  end.

Definition splitWhitespace (s : string) : list string := splitFrom false EmptyString s.

(** [word.replace(/[^a-z0-9]/g, '')] *)
Fixpoint keepAlphanumeric (s : string) : string :=
  match s with
  | EmptyString => EmptyString
  | String c r =>
      if between 97 122 (charCode c) || between 48 57 (charCode c)
      then String c (keepAlphanumeric r)
      else keepAlphanumeric r
  end.

Definition nonEmpty (s : string) : bool :=
  match s with
  | EmptyString => false
  | String _ _ => true
  end.

Definition extractKeywords (query : string) : list string :=
  filter nonEmpty
    (map keepAlphanumeric
       (filter (fun w => (2 <? String.length w) && negb (existsb (String.eqb w) stopWords))
          (splitWhitespace query))).

Definition inferDocumentTypes (intent : QueryIntent) (query : string) : list DocumentType :=
  match intent with
  | api_reference => [openapi; txt]
  | architecture => [plantuml; txt]
  | troubleshoot => [txt; openapi]
  | how_to => [txt; openapi]
  | definition => [txt; openapi]
  | comparison => [txt; plantuml]
  | example => [openapi; txt]
  | general => [txt; openapi; plantuml]
  end.

Definition codePatterns : list Regex.t :=
  [ word (oneOf ["code"; "snippet"; "example"; "implementation"; "function"; "method"; "class"]);
    word (oneOf ["javascript"; "typescript"; "python"; "java"; "go"; "rust"; "cpp"; "c++"]);
    Alt (Class (fun c => existsb (Ascii.eqb c) ["{"; "}"; "["; "]"; ";"; "="; "("; ")"]%char))
        (word (oneOf ["const"; "let"; "var"; "function"; "class"; "interface"; "type"])) ].

Definition detectCodeRequirement (query : string) : bool :=
  existsb (fun p => test p query) codePatterns.

Definition diagramPatterns : list Regex.t :=
  [ word (oneOf ["diagram"; "chart"; "flow"; "sequence"; "class"; "component"; "deployment"]);
    word (oneOf ["plantuml"; "mermaid"; "graphviz"]);
    word (oneOf ["visualization"; "visual"; "picture"; "show"; "draw"]) ].

Definition detectDiagramRequirement (query : string) : bool :=
  existsb (fun p => test p query) diagramPatterns.

Definition calculateConfidence (query : string) (intent : QueryIntent) : float :=
  let confidence := 0.5%float in
  let confidence :=
    if 20 <? String.length query then PrimFloat.add confidence 0.1%float else confidence in
  let confidence :=
    if 50 <? String.length query then PrimFloat.add confidence 0.1%float else confidence in
  let confidence :=
    if negb (QueryIntent_eqb intent general) then PrimFloat.add confidence 0.2%float
    else confidence in
  let confidence :=
    if String.length query <? 10 then PrimFloat.sub confidence 0.2%float else confidence in
  Math_min 1%float (Math_max 0%float confidence).

Definition analyze (query : string) : AnalyzedQuery.t :=
  let normalized := normalize query in
  let intent := detectIntent normalized in
  let keywords := extractKeywords normalized in
  let documentTypes := inferDocumentTypes intent normalized in
  AnalyzedQuery.mk query normalized intent keywords documentTypes
    (detectCodeRequirement normalized)
    (detectDiagramRequirement normalized)
    (calculateConfidence normalized intent).

End QueryAnalyzer.

(** ** Retrieval service *)

Module RetrievalOptions.
Record t : Type := mk {
  projectId : option string;
  documentTypes : option (list DocumentType);
  limit : option nat;
  threshold : option float;
  rerank : option bool;
  deduplicate : option bool
}.

Definition orElse {A : Type} (override default : option A) : option A :=
  match override with
  | Some v => Some v
  | None => default
  end.

(** [{ ...defaults, ...options }] *)
Definition spread (defaults options : t) : t :=
  mk (orElse (projectId options) (projectId defaults))
     (orElse (documentTypes options) (documentTypes defaults))
     (orElse (limit options) (limit defaults))
     (orElse (threshold options) (threshold defaults))
     (orElse (rerank options) (rerank defaults))
     (orElse (deduplicate options) (deduplicate defaults)).
End RetrievalOptions.

Module SearchOptions.
Record t : Type := mk {
  projectId : option string;
  documentTypes : option (list DocumentType);
  limit : option nat;
  threshold : option float
}.
End SearchOptions.

Module RetrievalService.
Import JS.

Definition DEFAULT_RETRIEVAL_OPTIONS : RetrievalOptions.t :=
  RetrievalOptions.mk None None (Some 10) (Some 0.3%float) (Some true) (Some true).

Definition calculateScore (result : SearchResult.t) (query : AnalyzedQuery.t) : float :=
  let score := SearchResult.relevance result in
  let score :=
    PrimFloat.mul score
      (PrimFloat.add 1%float (PrimFloat.mul (SearchResult.weight result) 0.2%float)) in
  let score :=
    if QueryIntent_eqb (AnalyzedQuery.intent query) api_reference
       && DocumentType_eqb (SearchResult.documentType result) openapi
    then PrimFloat.mul score 1.1%float else score in
  let score :=
    if QueryIntent_eqb (AnalyzedQuery.intent query) architecture
       && DocumentType_eqb (SearchResult.documentType result) plantuml
    then PrimFloat.mul score 1.1%float else score in
  Math_min 1%float score.

(** [results.map((r, i) => ({ ...r, rank: i + 1, score: ... }))]; [i] is
    the index of the head of the list. *)
Fixpoint toChunksFrom (i : nat) (query : AnalyzedQuery.t) (results : list SearchResult.t)
  : list RetrievedChunk.t :=
  match results with
  | [] => []
  | r :: rest =>
      RetrievedChunk.mk r (i + 1) (calculateScore r query) None
      :: toChunksFrom (S i) query rest
  end.

(** The comparator [(a, b) => b.score - a.score] of [rerank].  The sort
    uses its sign only, and for scores that are not NaN the difference is
    positive exactly when [a.score < b.score]: the difference of two
    distinct finite doubles never rounds to zero, and the NaN that two
    equal infinities give counts as zero. *)
Definition scoreAfter (a b : RetrievedChunk.t) : bool :=
  PrimFloat.ltb (RetrievedChunk.score a) (RetrievedChunk.score b).

(** [sorted.map((chunk, i) => ({ ...chunk, rank: i + 1 }))] *)
Fixpoint reassignRanksFrom (i : nat) (chunks : list RetrievedChunk.t)
  : list RetrievedChunk.t :=
  match chunks with
  | [] => []
  | c :: rest =>
      RetrievedChunk.mk (RetrievedChunk.result c) (i + 1)
        (RetrievedChunk.score c) (RetrievedChunk.duplicateOf c)
      :: reassignRanksFrom (S i) rest
  end.

Definition rerank (chunks : list RetrievedChunk.t) (query : AnalyzedQuery.t)
  : list RetrievedChunk.t :=
  reassignRanksFrom 0 (sort scoreAfter chunks).

(** One round of the hash loop: [hash = ((hash << 5) - hash) + char;
    hash = hash & hash]. *)
Definition hashStep (hash : Z) (c : ascii) : Z :=
  toInt32 (toInt32 (Z.shiftl hash 5) - hash + Z.of_nat (charCode c))%Z.

Fixpoint hashFrom (hash : Z) (s : string) : Z :=
  match s with
  | EmptyString => hash
  | String c r => hashFrom (hashStep hash c) r
  end.

Definition createFingerprint (content : string) : string :=
  let normalized := sliceTo 100 (trim (collapseWhitespace (toLowerCase content))) in
  toHexString (hashFrom 0%Z normalized).

(** The [Map] of [deduplicate], in insertion order. *)
Definition SeenMap : Type := list (string * RetrievedChunk.t).

Fixpoint mapGet (key : string) (m : SeenMap) : option RetrievedChunk.t :=
  match m with
  | [] => None
  | (k, v) :: rest => if String.eqb key k then Some v else mapGet key rest
  end.

(** [m.set(key, value)]: an existing key keeps its place. *)
Fixpoint mapSet (key : string) (value : RetrievedChunk.t) (m : SeenMap) : SeenMap :=
  match m with
  | [] => [(key, value)]
  | (k, v) :: rest =>
      if String.eqb key k then (k, value) :: rest else (k, v) :: mapSet key value rest
  end.

Definition withDuplicateOf (chunk : RetrievedChunk.t) (id : string) : RetrievedChunk.t :=
  RetrievedChunk.mk (RetrievedChunk.result chunk) (RetrievedChunk.rank chunk)
    (RetrievedChunk.score chunk) (Some id).

(** The body of the loop of [deduplicate]. *)
Definition dedupStep (seen : SeenMap) (chunk : RetrievedChunk.t) : SeenMap :=
  let fingerprint := createFingerprint (RetrievedChunk.content chunk) in
  match mapGet fingerprint seen with
  | Some existing =>
      if gt (RetrievedChunk.score chunk) (RetrievedChunk.score existing)
      then mapSet fingerprint (withDuplicateOf chunk (RetrievedChunk.chunkId existing)) seen
      else seen
  | None => mapSet fingerprint chunk seen
  end.

Definition deduplicate (chunks : list RetrievedChunk.t) : list RetrievedChunk.t :=
  map snd (fold_left dedupStep chunks []).

(** [chunks.slice(0, opts.limit)] *)
Definition sliceLimit (limit : option nat) (chunks : list RetrievedChunk.t)
  : list RetrievedChunk.t :=
  match limit with
  | Some n => firstn n chunks
  | None => chunks
  end.

Definition isTrue (flag : option bool) : bool :=
  match flag with
  | Some b => b
  | None => false
  end.

(** What [retrieve] does with the results of the vector search. *)
Definition rankResults (analyzedQuery : AnalyzedQuery.t) (opts : RetrievalOptions.t)
  (results : list SearchResult.t) : list RetrievedChunk.t :=
  let chunks := toChunksFrom 0 analyzedQuery results in
  let chunks :=
    if isTrue (RetrievalOptions.rerank opts) then rerank chunks analyzedQuery else chunks in
  let chunks :=
    if isTrue (RetrievalOptions.deduplicate opts) then deduplicate chunks else chunks in
  sliceLimit (RetrievalOptions.limit opts) chunks.

Definition searchOptionsOf (analyzedQuery : AnalyzedQuery.t) (opts : RetrievalOptions.t)
  : SearchOptions.t :=
  SearchOptions.mk
    (RetrievalOptions.projectId opts)
    (Some match RetrievalOptions.documentTypes opts with
          | Some types => types
          | None => AnalyzedQuery.documentTypes analyzedQuery
          end)
    (option_map (fun n => n * 2) (RetrievalOptions.limit opts))
    (RetrievalOptions.threshold opts).

Section Collaborators.
(** The embedder and the vector store; a failure to obtain one of the
    two services counts as a failure of its call. *)
Variable embed : string -> Outcome (list float).
Variable search : list float -> SearchOptions.t -> Outcome (list SearchResult.t).

Definition retrieve (analyzedQuery : AnalyzedQuery.t) (options : RetrievalOptions.t)
  : Outcome (list RetrievedChunk.t) :=
  let opts := RetrievalOptions.spread DEFAULT_RETRIEVAL_OPTIONS options in
  bind (embed (AnalyzedQuery.normalized analyzedQuery)) (fun queryEmbedding =>
  bind (search queryEmbedding (searchOptionsOf analyzedQuery opts)) (fun results =>
  Returns (rankResults analyzedQuery opts results))).
End Collaborators.

End RetrievalService.

(** ** Prompt builder *)

Inductive ResponseFormat : Type := markdown | json.

Module BuiltPrompt.
Record t : Type := mk {
  systemPrompt : string;
  userPrompt : string;
  contextChunks : list RetrievedChunk.t;
  estimatedTokens : nat
}.
End BuiltPrompt.

Module PromptBuilder.
Import JS.

Definition MAX_CONTEXT_TOKENS : nat := 4000.
Definition TOKEN_ESTIMATE_RATIO : nat := 4.

Definition baseInstructions : string :=
  join nl
    [ "You are a technical documentation assistant. Your responses must be:";
      EmptyString;
      "1. **GROUNDED IN FACTS**: Only use information from the provided context. Do not use external knowledge.";
      "2. **CITATION REQUIRED**: Cite sources for every significant claim using [source:N] format.";
      ("3. **HONEST ABOUT LIMITATIONS**: If the context doesn't contain the answer, say " ++ dquote ++ "I don't have enough information to answer that." ++ dquote)%string;
      "4. **PRECISE**: Be specific and technical. Avoid vague generalizations.";
      "5. **STRUCTURED**: Organize information clearly with headers, lists, and code blocks as appropriate." ].

Definition antiHallucination : string :=
  nl ++ nl ++ join nl
    [ "**CRITICAL - ANTI-HALLUCINATION RULES**:";
      "- NEVER invent API endpoints, parameters, or return values not in the context";
      "- NEVER make up code examples";
      "- NEVER assume functionality not explicitly documented";
      "- If information seems incomplete, state what is missing";
      "- When uncertain, express confidence level (high/medium/low)" ].

Definition jsonInstructions : string :=
  nl ++ nl ++ join nl
    [ "**OUTPUT FORMAT - JSON**:";
      "Respond with a JSON object containing:";
      "{";
      ("  " ++ dquote ++ "answer" ++ dquote ++ ": " ++ dquote ++ "Your detailed answer with citations" ++ dquote ++ ",")%string;
      ("  " ++ dquote ++ "confidence" ++ dquote ++ ": " ++ dquote ++ "high|medium|low" ++ dquote ++ ",")%string;
      ("  " ++ dquote ++ "sources" ++ dquote ++ ": [1, 2, 3],")%string;
      ("  " ++ dquote ++ "missingInfo" ++ dquote ++ ": " ++ dquote ++ "Any information that would be needed for a complete answer" ++ dquote)%string;
      "}" ].

Definition markdownInstructions : string :=
  nl ++ nl ++ join nl
    [ "**OUTPUT FORMAT - MARKDOWN**:";
      "Use markdown formatting:";
      "- Headers (##) for sections";
      ("- Code blocks (" ++ backtick ++ backtick ++ backtick ++ "language) for code")%string;
      "- Bullet points for lists";
      "- **Bold** for important terms";
      "- [source:N] citations inline" ].

Definition getIntentSpecificInstructions (intent : QueryIntent) : string :=
  match intent with
  | definition =>
      nl ++ nl ++ "**TASK - DEFINITION**: Provide a clear, technical definition. Include purpose, key characteristics, and relationships to other concepts."
  | how_to =>
      nl ++ nl ++ "**TASK - HOW-TO**: Provide step-by-step instructions. Number each step. Include prerequisites and expected outcomes."
  | comparison =>
      nl ++ nl ++ "**TASK - COMPARISON**: Create a structured comparison. Use a table if comparing multiple items. Highlight key differences clearly."
  | troubleshoot =>
      nl ++ nl ++ "**TASK - TROUBLESHOOTING**: Identify the issue, provide diagnostic steps, and offer solutions. Include common causes."
  | architecture =>
      nl ++ nl ++ "**TASK - ARCHITECTURE**: Describe components, their relationships, and data flow. Reference diagrams if available."
  | api_reference =>
      nl ++ nl ++ "**TASK - API REFERENCE**: Document endpoints, methods, parameters, and responses. Include example requests/responses."
  | example =>
      nl ++ nl ++ "**TASK - EXAMPLE**: Provide concrete, runnable examples. Explain what the code does and when to use it."
  | general => EmptyString
  end.

Definition constraints : string :=
  nl ++ nl ++ join nl
    [ "## Constraints";
      "- Answer based ONLY on the provided context";
      "- Cite sources using [source:N] format";
      "- Be concise but complete";
      "- If information is insufficient, say so explicitly" ].

Definition noInfoSystemPrompt : string :=
  join nl
    [ "You are a technical documentation assistant. The user asked a question, but no relevant information was found in the documentation.";
      EmptyString;
      "Your task: Politely explain that you don't have information about this topic in the current documentation. Suggest that they:";
      "1. Check if the topic is covered under a different name";
      ("2. Add relevant documentation using " ++ backtick ++ "robotin add <file>" ++ backtick)%string;
      "3. Rephrase their question" ].

Definition buildSystemPrompt (intent : QueryIntent) (format : ResponseFormat) : string :=
  let formatInstructions :=
    match format with
    | json => jsonInstructions
    | markdown => markdownInstructions
    end in
  let intentSpecific := getIntentSpecificInstructions intent in
  (baseInstructions ++ antiHallucination ++ formatInstructions ++ intentSpecific)%string.

(** [Math.ceil(chunk.content.length / this.TOKEN_ESTIMATE_RATIO)] *)
Definition chunkTokens (chunk : RetrievedChunk.t) : nat :=
  ceilDiv (String.length (RetrievedChunk.content chunk)) TOKEN_ESTIMATE_RATIO.

(** The loop of [selectChunks], from a state with [selectedCount] chunks
    selected and [estimatedTokens] tokens counted; it returns the chunks
    pushed from there on. *)
Fixpoint selectFrom (selectedCount estimatedTokens : nat) (chunks : list RetrievedChunk.t)
  : list RetrievedChunk.t :=
  match chunks with
  | [] => []
  | chunk :: rest =>
      if (MAX_CONTEXT_TOKENS <? estimatedTokens + chunkTokens chunk) && (0 <? selectedCount)
      then []
      else chunk :: selectFrom (S selectedCount) (estimatedTokens + chunkTokens chunk) rest
  end.

Definition selectChunks (chunks : list RetrievedChunk.t) : list RetrievedChunk.t :=
  selectFrom 0 0 chunks.

Definition estimateTokens (text : string) : nat :=
  ceilDiv (String.length text) TOKEN_ESTIMATE_RATIO.

Section Rendering.
(** [Number.prototype.toFixed] with one digit. *)
Variable toFixed1 : float -> string.

Definition metadataLine (chunk : RetrievedChunk.t) : string :=
  join " | "
    ([ ("Type: " ++ documentTypeName (RetrievedChunk.documentType chunk))%string ]
     ++ match RetrievedChunk.section chunk with
        | Some (String c r) => [ ("Section: " ++ String c r)%string ]
        | _ => []
        end
     ++ [ ("Relevance: "
           ++ toFixed1 (PrimFloat.mul (RetrievedChunk.score chunk) 100%float) ++ "%")%string ]).

(** [chunks.map((chunk, index) => ...)]; [index] is the index of the head. *)
Fixpoint sectionsFrom (index : nat) (chunks : list RetrievedChunk.t) : list string :=
  match chunks with
  | [] => []
  | chunk :: rest =>
      ("### Source " ++ natToString (index + 1) ++ nl
       ++ "**Metadata**: " ++ metadataLine chunk ++ nl ++ nl
       ++ RetrievedChunk.content chunk)%string
      :: sectionsFrom (S index) rest
  end.

Definition buildContextSection (chunks : list RetrievedChunk.t) : string :=
  match chunks with
  | [] => "## Context" ++ nl ++ nl ++ "No relevant context found."
  | _ :: _ =>
      "## Context" ++ nl ++ nl
      ++ join (nl ++ nl ++ "---" ++ nl ++ nl) (sectionsFrom 0 chunks)
  end.

Definition buildUserPrompt (query : AnalyzedQuery.t) (chunks : list RetrievedChunk.t)
  (format : ResponseFormat) : string :=
  let contextSection := buildContextSection chunks in
  let querySection := ("## Question" ++ nl ++ nl ++ AnalyzedQuery.original query)%string in
  (contextSection ++ nl ++ nl ++ querySection ++ constraints)%string.

Definition build (query : AnalyzedQuery.t) (chunks : list RetrievedChunk.t)
  (format : ResponseFormat) : BuiltPrompt.t :=
  let selectedChunks := selectChunks chunks in
  let systemPrompt := buildSystemPrompt (AnalyzedQuery.intent query) format in
  let userPrompt := buildUserPrompt query selectedChunks format in
  let estimatedTokens := estimateTokens (systemPrompt ++ userPrompt)%string in
  BuiltPrompt.mk systemPrompt userPrompt selectedChunks estimatedTokens.
End Rendering.

Definition buildNoInfoPrompt (query : AnalyzedQuery.t) : BuiltPrompt.t :=
  let systemPrompt := noInfoSystemPrompt in
  let userPrompt :=
    join nl
      [ ("The user asked: " ++ dquote ++ AnalyzedQuery.original query ++ dquote)%string;
        EmptyString;
        "No relevant context was found in the indexed documentation.";
        EmptyString;
        "Please provide a helpful response explaining this limitation." ] in
  BuiltPrompt.mk systemPrompt userPrompt [] (estimateTokens (systemPrompt ++ userPrompt)%string).

End PromptBuilder.

(** ** LLM service *)

Inductive Role : Type := system | user | assistant.

Module Message.
Record t : Type := mk {
  role : Role;
  content : string
}.
End Message.

Module LLMOptions.
Record t : Type := mk {
  temperature : option float;
  maxTokens : option nat;
  model : option string
}.
End LLMOptions.

(** The provider interface.  A provider is probed and called at most once
    in a [chat], so the probe is the outcome of that one call.  The cost
    estimate, used for logging only, is arithmetic and does not throw. *)
Module LLMProvider.
Record t : Type := mk {
  name : string;
  baseURL : string;
  defaultModel : string;
  maxContext : nat;
  chat : list Message.t -> LLMOptions.t -> JS.Outcome LLMResponse.t;
  isAvailable : JS.Outcome bool;
  estimateCost : nat -> float
}.
End LLMProvider.

Module LLMService.
Import JS.

(** An entry [{ provider, error }] of the [errors] array. *)
Definition ProviderError : Type := (string * string)%type.

Definition describe (e : ProviderError) : string := fst e ++ " (" ++ snd e ++ ")".

Definition aggregateMessage (errors : list ProviderError) : string :=
  "All LLM providers failed: " ++ join ", " (map describe errors).

(** The loop of [chat] over the providers still to try, with the errors
    recorded so far. *)
Fixpoint chatFrom (providers : list LLMProvider.t) (messages : list Message.t)
  (options : LLMOptions.t) (errors : list ProviderError) : Outcome LLMResponse.t :=
  match providers with
  | [] => Throws (aggregateMessage errors)
  | provider :: rest =>
      match LLMProvider.isAvailable provider with
      | Returns false => chatFrom rest messages options errors
      | Returns true =>
          match LLMProvider.chat provider messages options with
          | Returns response => Returns response
          | Throws errorMessage =>
              chatFrom rest messages options
                (errors ++ [(LLMProvider.name provider, errorMessage)])%list
          end
      | Throws errorMessage =>
          chatFrom rest messages options
            (errors ++ [(LLMProvider.name provider, errorMessage)])%list
      end
  end.

(** [chat] of a service whose [initialize] has set up [providers]. *)
Definition chat (providers : list LLMProvider.t) (messages : list Message.t)
  (options : LLMOptions.t) : Outcome LLMResponse.t :=
  chatFrom providers messages options [].



(** [estimateCosts]: an entry [{ provider, cost }] for every provider. *)
Definition estimateCosts (providers : list LLMProvider.t) (tokens : nat)
  : list (string * float) :=
  map (fun p => (LLMProvider.name p, LLMProvider.estimateCost p tokens)) providers.

(** The part of the configuration the service reads. *)
Record Config : Type := mkConfig {
  lmStudioHost : string;
  lmStudioModel : string;
  deepseekApiKey : option string;
  kimiApiKey : option string;
  openaiApiKey : option string;
  openaiModel : string
}.

(** The fields [providers] and [isInitialized] of the service. *)
Record State : Type := mkState {
  providers : list LLMProvider.t;
  isInitialized : bool
}.

Definition newService : State := mkState [] false.

(** A configured key counts when it is a non-empty string. *)
Definition configuredKey (key : option string) : option string :=
  match key with
  | Some (String c r) => Some (String c r)
  | _ => None
  end.

Definition hasKey (key : option string) : bool :=
  match configuredKey key with
  | Some _ => true
  | None => false
  end.

(** [(tokens / 1_000_000) * avgPricePer1M] *)
Definition costAt (avgPricePer1M : float) (tokens : nat) : float :=
  PrimFloat.mul (PrimFloat.div (numberOfNat tokens) 1000000%float) avgPricePer1M.

Section Providers.
(** The network behind the provider classes: what the call and the probe
    of a provider built from the given address or key and model do. *)
Variable call :
  ProviderTag -> string -> string -> list Message.t -> LLMOptions.t -> Outcome LLMResponse.t.
Variable probe : ProviderTag -> string -> Outcome bool.

Definition LMStudioProvider (baseURL model : string) : LLMProvider.t :=
  LLMProvider.mk "lmstudio" baseURL model 128000
    (call lmstudio baseURL model) (probe lmstudio baseURL) (fun _ => 0%float).

Definition DeepSeekProvider (apiKey : string) : LLMProvider.t :=
  LLMProvider.mk "deepseek" "https://api.deepseek.com" "deepseek-chat" 64000
    (call deepseek apiKey "deepseek-chat") (probe deepseek apiKey)
    (costAt (PrimFloat.add (PrimFloat.mul 0.28 0.7) (PrimFloat.mul 0.42 0.3))%float).

Definition KimiProvider (apiKey : string) : LLMProvider.t :=
  LLMProvider.mk "kimi" "https://api.moonshot.cn/v1" "kimi-k2.5" 256000
    (call kimi apiKey "kimi-k2.5") (probe kimi apiKey)
    (costAt (PrimFloat.add (PrimFloat.mul 0.50 0.7) (PrimFloat.mul 1.50 0.3))%float).

Definition OpenAIProvider (apiKey model : string) : LLMProvider.t :=
  LLMProvider.mk "openai" "https://api.openai.com/v1" model 128000
    (call openai apiKey model) (probe openai apiKey)
    (costAt (PrimFloat.add (PrimFloat.mul 2.50 0.7) (PrimFloat.mul 10.00 0.3))%float).

(** The providers one [initialize] pushes, in its order. *)
Definition configuredProviders (config : Config) : list LLMProvider.t :=
  ([ LMStudioProvider (lmStudioHost config) (lmStudioModel config) ]
   ++ match configuredKey (deepseekApiKey config) with
      | Some key => [ DeepSeekProvider key ]
      | None => []
      end
   ++ match configuredKey (kimiApiKey config) with
      | Some key => [ KimiProvider key ]
      | None => []
      end
   ++ match configuredKey (openaiApiKey config) with
      | Some key => [ OpenAIProvider key (openaiModel config) ]
      | None => []
      end)%list.

Definition initialize (config : Config) (service : State) : State :=
  if isInitialized service then service
  else mkState (providers service ++ configuredProviders config)%list true.

(** [chat] as a method: [await this.initialize()] and then the loop. *)
Definition chatOf (config : Config) (service : State) (messages : list Message.t)
  (options : LLMOptions.t) : Outcome LLMResponse.t * State :=
  let service := initialize config service in
  (chat (providers service) messages options, service).
End Providers.

End LLMService.

(** ** Query engine *)

Module QueryOptions.
Record t : Type := mk {
  projectId : option string;
  format : option ResponseFormat;
  temperature : option float;
  maxTokens : option nat;
  includeSources : option bool
}.

Definition spread (defaults options : t) : t :=
  mk (RetrievalOptions.orElse (projectId options) (projectId defaults))
     (RetrievalOptions.orElse (format options) (format defaults))
     (RetrievalOptions.orElse (temperature options) (temperature defaults))
     (RetrievalOptions.orElse (maxTokens options) (maxTokens defaults))
     (RetrievalOptions.orElse (includeSources options) (includeSources defaults)).
End QueryOptions.

Module QueryMetadata.
Record t : Type := mk {
  queryTimeMs : Z;
  retrievalTimeMs : Z;
  generationTimeMs : Z;
  chunksRetrieved : nat;
  tokensUsed : option nat;
  modelUsed : option string
}.
End QueryMetadata.

Module QueryResult.
Record t : Type := mk {
  success : bool;
  answer : string;
  sources : list RetrievedChunk.t;
  confidence : ConfidenceLevel;
  metadata : QueryMetadata.t;
  error : option string
}.
End QueryResult.

Module QueryEngine.
Import JS.

(** The calls [query] makes to the outside: the clock ([Date.now()]), the
    retrieval service ([this.retrieval.retrieve]) and the LLM service
    ([await this.llmPromise] followed by [llm.generate]).  Whatever makes
    one of the two awaited steps fail is a [Throws] of its outcome. *)
Inductive Event : Type -> Type :=
| Now : Event Z
| Retrieve (analyzed : AnalyzedQuery.t) (options : RetrievalOptions.t)
    : Event (Outcome (list RetrievedChunk.t))
| Generate (prompt : string) (options : LLMOptions.t)
    : Event (Outcome LLMResponse.t).

(** A computation that makes such calls. *)
Inductive Prog (A : Type) : Type :=
| Done (a : A)
| Call (X : Type) (e : Event X) (k : X -> Prog A).
Arguments Done {A} a.
Arguments Call {A X} e k.

Notation "x <- e ;; k" := (Call e (fun x => k))
  (at level 61, e at next level, right associativity).

Definition DEFAULT_QUERY_OPTIONS : QueryOptions.t :=
  QueryOptions.mk None (Some markdown) (Some 0%float) (Some 1024) (Some true).

(** The options object [query] hands to [retrieve]. *)
Definition retrievalOptionsOf (opts : QueryOptions.t) : RetrievalOptions.t :=
  RetrievalOptions.mk (QueryOptions.projectId opts) None
    (Some 10) (Some 0.6%float) None None.

Definition formatOf (opts : QueryOptions.t) : ResponseFormat :=
  match QueryOptions.format opts with
  | Some f => f
  | None => markdown
  end.

Section Query.
Variable toFixed1 : float -> string.

(** The [catch] block. *)
Definition failed (startTime : Z) (errorMessage : string) : Prog QueryResult.t :=
  t <- Now ;;
  Done (QueryResult.mk false EmptyString [] insufficient
          (QueryMetadata.mk (t - startTime) 0 0 0 None None)
          (Some errorMessage)).

Definition query (question : string) (options : QueryOptions.t) : Prog QueryResult.t :=
  let opts := QueryOptions.spread DEFAULT_QUERY_OPTIONS options in
  startTime <- Now ;;
  let analyzed := QueryAnalyzer.analyze question in
  retrievalStart <- Now ;;
  retrieved <- Retrieve analyzed (retrievalOptionsOf opts) ;;
  match retrieved with
  | Throws errorMessage => failed startTime errorMessage
  | Returns chunks =>
      retrievalEnd <- Now ;;
      let retrievalTimeMs := (retrievalEnd - retrievalStart)%Z in
      match chunks with
      | [] =>
          t1 <- Now ;;
          let processed := ResponseProcessor.processNoInfoResponse (t1 - startTime) in
          t2 <- Now ;;
          Done (QueryResult.mk true (ProcessedResponse.answer processed) [] insufficient
                  (QueryMetadata.mk (t2 - startTime) retrievalTimeMs 0 0 None None)
                  None)
      | _ :: _ =>
          let prompt := PromptBuilder.build toFixed1 analyzed chunks (formatOf opts) in
          generationStart <- Now ;;
          let llmOptions :=
            LLMOptions.mk (QueryOptions.temperature opts) (QueryOptions.maxTokens opts) None in
          generated <- Generate (BuiltPrompt.userPrompt prompt) llmOptions ;;
          match generated with
          | Throws errorMessage => failed startTime errorMessage
          | Returns llmResponse =>
              generationEnd <- Now ;;
              let generationTimeMs := (generationEnd - generationStart)%Z in
              t3 <- Now ;;
              let processed :=
                ResponseProcessor.process llmResponse (BuiltPrompt.contextChunks prompt)
                  (t3 - startTime) in
              t4 <- Now ;;
              let totalTime := (t4 - startTime)%Z in
              Done (QueryResult.mk true (ProcessedResponse.answer processed)
                      (if RetrievalService.isTrue (QueryOptions.includeSources opts)
                       then chunks else [])
                      (ProcessedResponse.confidence processed)
                      (QueryMetadata.mk totalTime retrievalTimeMs generationTimeMs
                         (List.length chunks)
                         (LLMResponse.tokensUsed llmResponse)
                         (Some (LLMResponse.model llmResponse)))
                      None)
          end
      end
  end.
End Query.

(** The outside world: the successive readings of the clock and the
    behaviour of the two services. *)
Record World : Type := mkWorld {
  clock : nat -> Z;
  retrieval : AnalyzedQuery.t -> RetrievalOptions.t -> Outcome (list RetrievedChunk.t);
  generation : string -> LLMOptions.t -> Outcome LLMResponse.t
}.

Definition respond (w : World) (reads : nat) {X : Type} (e : Event X) : X :=
  match e in Event X return X with
  | Now => clock w reads
  | Retrieve analyzed options => retrieval w analyzed options
  | Generate prompt options => generation w prompt options
  end.

Definition readsAfter {X : Type} (e : Event X) (reads : nat) : nat :=
  match e with
  | Now => S reads
  | _ => reads
  end.

(** The calls to the two services, as observed from outside. *)
Inductive ServiceCall : Type :=
| Retrieved (analyzed : AnalyzedQuery.t) (options : RetrievalOptions.t)
| Generated (prompt : string) (options : LLMOptions.t).

Definition observe {X : Type} (e : Event X) : list ServiceCall :=
  match e with
  | Now => []
  | Retrieve analyzed options => [Retrieved analyzed options]
  | Generate prompt options => [Generated prompt options]
  end.

(** Running a computation in a world, after [reads] readings of the
    clock: its result and the service calls it made, in order. *)
Fixpoint run {A : Type} (w : World) (p : Prog A) (reads : nat) : A * list ServiceCall :=
  match p with
  | Done a => (a, [])
  | Call e k =>
      let r := run w (k (respond w reads e)) (readsAfter e reads) in
      (fst r, (observe e ++ snd r)%list)
  end.

Definition retrievalCalls (calls : list ServiceCall)
  : list (AnalyzedQuery.t * RetrievalOptions.t) :=
  flat_map (fun c => match c with
                     | Retrieved analyzed options => [(analyzed, options)]
                     | Generated _ _ => []
                     end) calls.

End QueryEngine.

(** ** Vocabulary of the properties *)

Module Spec.
Import JS.

(** The six phrasings the specification lists for the grounding check. *)
Definition listedPhrasings : list string :=
  [ "according to my knowledge"; "as an ai"; "typically"; "usually"; "generally";
    "in my opinion" ].

(** The sum of the token estimates [selectChunks] counts. *)
Definition totalTokens (chunks : list RetrievedChunk.t) : nat :=
  list_sum (map PromptBuilder.chunkTokens chunks).

(** Scores that do not increase from one element to the next. *)
Fixpoint nonIncreasing (scores : list float) : Prop :=
  match scores with
  | a :: (b :: _) as rest => PrimFloat.leb b a = true /\ nonIncreasing rest
  | _ => True
  end.

Definition ranks (chunks : list RetrievedChunk.t) : list nat :=
  map RetrievedChunk.rank chunks.

Definition scores (chunks : list RetrievedChunk.t) : list float :=
  map RetrievedChunk.score chunks.

(** What the loop of [chat] records for a provider: nothing when the
    probe says unavailable or when the call returns, and the name with the
    message when the probe or the call throws. *)
Definition recordedError (messages : list Message.t) (options : LLMOptions.t)
  (provider : LLMProvider.t) : list LLMService.ProviderError :=
  match LLMProvider.isAvailable provider with
  | Throws reason => [(LLMProvider.name provider, reason)]
  | Returns false => []
  | Returns true =>
      match LLMProvider.chat provider messages options with
      | Throws reason => [(LLMProvider.name provider, reason)]
      | Returns _ => []
      end
  end.

(** The provider is available and its call returns. *)
Definition responds (messages : list Message.t) (options : LLMOptions.t)
  (provider : LLMProvider.t) : bool :=
  match LLMProvider.isAvailable provider with
  | Returns true =>
      match LLMProvider.chat provider messages options with
      | Returns _ => true
      | Throws _ => false
      end
  | _ => false
  end.

(** [s.repeat(n)] *)
Fixpoint repeatString (s : string) (n : nat) : string :=
  match n with
  | O => EmptyString
  | S n' => s ++ repeatString s n'
  end.

(** The score of the chunk is a number. *)
Definition notNaN (c : RetrievedChunk.t) : Prop :=
  PrimFloat.is_nan (RetrievedChunk.score c) = false.

(** The keys of the [Map] of [deduplicate]. *)
Definition keys (m : RetrievalService.SeenMap) : list string := map fst m.

(** The fingerprint of the content of a chunk. *)
Definition fingerprintOf (c : RetrievedChunk.t) : string :=
  RetrievalService.createFingerprint (RetrievedChunk.content c).

(** The chunks of a list that have the fingerprint [key]. *)
Definition withFingerprint (key : string) (chunks : list RetrievedChunk.t)
  : list RetrievedChunk.t :=
  filter (fun c => String.eqb (fingerprintOf c) key) chunks.

(** The invariant of the loop of [deduplicate]: the keys of [seen] are
    distinct, and every value is a chunk met so far, but for its
    [duplicateOf], under the fingerprint of that chunk. *)
Definition tracks (met : list RetrievedChunk.t) (seen : RetrievalService.SeenMap) : Prop :=
  NoDup (keys seen)
  /\ forall k v, In (k, v) seen ->
       exists c, In c met
                 /\ RetrievedChunk.result v = RetrievedChunk.result c
                 /\ RetrievedChunk.rank v = RetrievedChunk.rank c
                 /\ fingerprintOf c = k.

(** The number [n] is the position of a chunk of [chunks]. *)
Definition resolves (chunks : list RetrievedChunk.t) (n : N) : bool :=
  match ResponseProcessor.chunkAt chunks n with
  | Some _ => true
  | None => false
  end.

(** Every code unit of the string passes the test. *)
Fixpoint allChars (p : ascii -> bool) (s : string) : bool :=
  match s with
  | EmptyString => true
  | String c r => p c && allChars p r
  end.


(** A lower-case letter or a digit. *)
Definition isKeywordChar (c : ascii) : bool :=
  between 97 122 (charCode c) || between 48 57 (charCode c).

(** The white space of the string is made of single spaces: [afterSpace]
    tells that the code unit before the string is white space. *)
Fixpoint singleSpacedFrom (afterSpace : bool) (s : string) : bool :=
  match s with
  | EmptyString => true
  | String c r =>
      if isSpace c
      then Ascii.eqb c " " && negb afterSpace && singleSpacedFrom true r
      else singleSpacedFrom false r
  end.

(** Some pattern of the list matches the text. *)
Definition anyMatches (regexes : list Regex.t) (query : string) : bool :=
  existsb (fun regex => Regex.test regex query) regexes.

(** A value of the [Map] of [deduplicate] under the key [k]: a chunk met
    so far with this fingerprint, as it is or with the identifier of a
    chunk met so far, of the same fingerprint and a lower score, as its
    [duplicateOf]. *)
Definition keptFrom (met : list RetrievedChunk.t) (k : string) (v : RetrievedChunk.t)
  : Prop :=
  exists c,
    In c met /\ fingerprintOf c = k
    /\ (v = c
        \/ exists e,
             In e met /\ fingerprintOf e = k
             /\ JS.gt (RetrievedChunk.score c) (RetrievedChunk.score e) = true
             /\ v = RetrievalService.withDuplicateOf c (RetrievedChunk.chunkId e)).

(** The [Map] of [deduplicate] after the chunks [met]: distinct keys,
    values as above, and a key for the fingerprint of every chunk met. *)
Definition complete (met : list RetrievedChunk.t) (seen : RetrievalService.SeenMap) : Prop :=
  NoDup (keys seen)
  /\ (forall k v, In (k, v) seen -> keptFrom met k v)
  /\ (forall c, In c met -> In (fingerprintOf c) (keys seen)).

(** A chunk without its rank. *)
Definition withoutRank (c : RetrievedChunk.t) : SearchResult.t * float * option string :=
  (RetrievedChunk.result c, RetrievedChunk.score c, RetrievedChunk.duplicateOf c).

(** The [Map] of [deduplicate] holds, for every chunk met, a value under
    its fingerprint whose score is not below the score of the chunk. *)
Definition dominates (met : list RetrievedChunk.t) (seen : RetrievalService.SeenMap) : Prop :=
  forall c,
    In c met ->
    exists v,
      RetrievalService.mapGet (fingerprintOf c) seen = Some v
      /\ PrimFloat.leb (RetrievedChunk.score c) (RetrievedChunk.score v) = true.

(** [a] may come before [b] in an order of non-increasing scores. *)
Definition scoresAtLeast (a b : RetrievedChunk.t) : Prop :=
  PrimFloat.leb (RetrievedChunk.score b) (RetrievedChunk.score a) = true.


(** The section [buildContextSection] renders for the chunk at index
    [index] of the included chunks. *)
Definition sourceSection (toFixed1 : float -> string) (index : nat)
  (chunk : RetrievedChunk.t) : string :=
  "### Source " ++ natToString (index + 1) ++ nl
  ++ "**Metadata**: " ++ PromptBuilder.metadataLine toFixed1 chunk ++ nl ++ nl
  ++ RetrievedChunk.content chunk.

End Spec.

(** ** Example data *)

(** Three search results for the examples: the first two have the same
    text up to case and spacing. *)
Definition exampleResults : list SearchResult.t :=
  [ SearchResult.mk "chunk-a" "doc-1" "p" "JWT tokens are issued on login."
      0.9%float txt None 0%float;
    SearchResult.mk "chunk-b" "doc-2" "p" "jwt tokens  are issued on LOGIN."
      0.7%float txt None 0%float;
    SearchResult.mk "chunk-c" "doc-3" "p" "Sessions expire after an hour."
      0.6%float txt None 0%float ].

Definition exampleEmbed (text : string) : JS.Outcome (list float) :=
  JS.Returns [0.25%float; 0.5%float].

Definition exampleSearch (embedding : list float) (options : SearchOptions.t)
  : JS.Outcome (list SearchResult.t) :=
  JS.Returns exampleResults.

Definition noRetrievalOptions : RetrievalOptions.t :=
  RetrievalOptions.mk None None None None None None.

Definition exampleChunkA : RetrievedChunk.t :=
  RetrievedChunk.mk
    (SearchResult.mk "chunk-a" "doc-1" "p" "JWT tokens are issued on login."
       0.9%float txt None 0%float)
    1 0.9%float None.

Definition exampleChunkB : RetrievedChunk.t :=
  RetrievedChunk.mk
    (SearchResult.mk "chunk-b" "doc-2" "p" "jwt tokens  are issued on LOGIN."
       0.7%float txt None 0%float)
    2 0.7%float None.

(** A local provider that is not running and a hosted provider that
    rejects the key. *)
Definition offlineProvider : LLMProvider.t :=
  LLMProvider.mk "lmstudio" "http://localhost:1234" "local-model" 128000
    (fun _ _ => JS.Throws "LM Studio error: 503")
    (JS.Returns false)
    (fun _ => 0%float).

Definition rejectingProvider : LLMProvider.t :=
  LLMProvider.mk "openai" "https://api.openai.com/v1" "gpt-4o" 128000
    (fun _ _ => JS.Throws "OpenAI error: 401")
    (JS.Returns true)
    (fun _ => 0%float).

Definition noLLMOptions : LLMOptions.t := LLMOptions.mk None None None.

(** * Properties *)

(** ** The embedding at work *)

Example analyze_definition_question :
  let analyzed := QueryAnalyzer.analyze "What is the  authentication flow?" in
  AnalyzedQuery.normalized analyzed = "what is the authentication flow"
  /\ AnalyzedQuery.intent analyzed = definition
  /\ AnalyzedQuery.keywords analyzed = ["what"; "authentication"; "flow"]
  /\ AnalyzedQuery.documentTypes analyzed = [txt; openapi]
  /\ AnalyzedQuery.requiresDiagram analyzed = true.
Proof. vm_compute. repeat split. Qed.

Example detectIntent_follows_table_order :
  map QueryAnalyzer.detectIntent
    [ "how does the session module work"; "why is the session module slow";
      "pros and cons of jwt"; "show me the endpoint"; "hello there" ]
  = [how_to; architecture; comparison; api_reference; general].
Proof. vm_compute. reflexivity. Qed.

Example createFingerprint_ignores_case_and_spacing :
  RetrievalService.createFingerprint "Hello  World" = "6aefe2c4"
  /\ RetrievalService.createFingerprint " hello world  " = "6aefe2c4"
  /\ RetrievalService.createFingerprint
       "The quick brown fox jumps over the lazy dog and keeps running" = "-73c0aac9".
Proof. vm_compute. repeat split. Qed.

Example toFixed1_rounds_the_binary_value :
  map JS.toFixed1 [90; 0.9 * 100; 0.05; 0.25; 0.35; 99.95; -2.55]%float
  = ["90.0"; "90.0"; "0.1"; "0.3"; "0.3"; "100.0"; "-2.5"].
Proof. vm_compute. reflexivity. Qed.

(** Of the markers 2 and 5 only 2 resolves against three chunks. *)
Example extractCitations_drops_unknown_marker :
  map SourceCitation.number
    (ResponseProcessor.extractCitations
       "Tokens are issued on login [source:2] and refreshed hourly [source:5]."
       (RetrievalService.toChunksFrom 0
          (QueryAnalyzer.analyze "How are tokens issued?") exampleResults))
  = [2%N].
Proof. vm_compute. reflexivity. Qed.

(** ** Response processor *)

Section ResponseProcessorFacts.
Import JS ResponseProcessor Spec.

(** Without an admission, one citation is enough to leave [insufficient],
    and no citation is not. *)
Lemma determineConfidence_insufficient_iff content citations chunks :
  determineConfidence content citations chunks = insufficient <->
  citations = [] \/ admitsNoInformation content = true.
Proof.
  unfold determineConfidence.
  destruct (admitsNoInformation content); [tauto|].
  destruct (hasUncertainty content);
    destruct citations as [|c1 [|c2 [|c3 rest]]].
  all: try (vm_compute; tauto).
  all: cbv zeta;
    match goal with
    | |- context [gt (avgRelevance ?l) _] => generalize (avgRelevance l); intros avg
    end;
    destruct (gt avg 0.8%float); destruct (gt avg 0.6%float);
    split; intros H; try (destruct H; discriminate); exfalso; revert H;
    vm_compute; discriminate.
Qed.

(** C1.  [process] returns the confidence [insufficient] if and only if no
    citation was resolved from the answer or the answer contains one of the
    explicit admissions; in particular an answer without any citation
    marker is [insufficient] whatever the chunks and their scores are. *)
Theorem process_confidence_insufficient_iff :
  forall (llmResponse : LLMResponse.t) (contextChunks : list RetrievedChunk.t)
         (processingTimeMs : Z),
    let r := process llmResponse contextChunks processingTimeMs in
    (ProcessedResponse.confidence r = insufficient <->
     ProcessedResponse.sources r = []
     \/ admitsNoInformation (LLMResponse.content llmResponse) = true)
    /\ (citedNumbers (LLMResponse.content llmResponse) = [] ->
        ProcessedResponse.confidence r = insufficient).
Proof.
  intros llmResponse contextChunks processingTimeMs r.
  assert (Hiff : ProcessedResponse.confidence r = insufficient <->
                 ProcessedResponse.sources r = []
                 \/ admitsNoInformation (LLMResponse.content llmResponse) = true)
    by apply determineConfidence_insufficient_iff.
  split; [exact Hiff|].
  intros Hnone. apply Hiff. left.
  subst r. unfold process, extractCitations. simpl.
  now rewrite Hnone.
Qed.

Lemma process_confidence_insufficient_iff_witness :
  ProcessedResponse.confidence
    (process (LLMResponse.mk "The flow issues a token and refreshes it." None "m" lmstudio)
       [ RetrievedChunk.mk
           (SearchResult.mk "c1" "d1" "p" "Tokens are issued on login." 0.95%float txt None 0%float)
           1 0.95%float None ]
       12%Z)
  = insufficient.
Proof.
  apply (proj2 (process_confidence_insufficient_iff
                  (LLMResponse.mk "The flow issues a token and refreshes it." None "m" lmstudio)
                  [ RetrievedChunk.mk
                      (SearchResult.mk "c1" "d1" "p" "Tokens are issued on login."
                         0.95%float txt None 0%float)
                      1 0.95%float None ]
                  12%Z)).
  reflexivity.
Defined.

Lemma existsb_false_iff {A : Type} (f : A -> bool) (l : list A) :
  existsb f l = false <-> forall x, In x l -> f x = false.
Proof.
  induction l as [|a l IH]; simpl.
  - split; [intros _ x []|reflexivity].
  - rewrite orb_false_iff, IH. split.
    + intros [Ha Hl] x [<-|Hx]; auto.
    + intros H. split; [apply H; now left|intros x Hx; apply H; now right].
Qed.

(** C7, as the code has it.  The answer is reported grounded exactly when
    at least one citation was resolved and the lowercased text contains
    none of the seven phrasings of the code, which are the six listed ones
    and "i believe". *)
Theorem process_isGrounded_iff :
  forall (llmResponse : LLMResponse.t) (contextChunks : list RetrievedChunk.t)
         (processingTimeMs : Z),
    let r := process llmResponse contextChunks processingTimeMs in
    ResponseMetadata.isGrounded (ProcessedResponse.metadata r) = true <->
    ProcessedResponse.sources r <> []
    /\ forall phrasing,
         In phrasing ("i believe" :: listedPhrasings) ->
         includes (toLowerCase (LLMResponse.content llmResponse)) phrasing = false.
Proof.
  intros llmResponse contextChunks processingTimeMs r. subst r. simpl.
  set (content := LLMResponse.content llmResponse).
  unfold checkGrounding.
  destruct (extractCitations content contextChunks) as [|c cs].
  - split; [discriminate|intros [H _]; now elim H].
  - rewrite negb_true_iff, existsb_false_iff. split.
    + intros H. split; [discriminate|].
      intros phrasing Hin. apply H. unfold listedPhrasings in Hin. simpl in *. tauto.
    + intros [_ H] phrasing Hin. apply H. unfold listedPhrasings. simpl in *. tauto.
Qed.

(** C7, counterexample.  An answer that says "I believe" and cites its one
    source has a resolved citation and none of the six listed phrasings,
    yet it is not reported grounded. *)
Lemma process_isGrounded_listed_counterexample :
  let llmResponse :=
    LLMResponse.mk "I believe the flow uses tokens [source:1]." None "m" lmstudio in
  let r :=
    process llmResponse
      [ RetrievedChunk.mk
          (SearchResult.mk "c1" "d1" "p" "Tokens are issued on login." 0.9%float txt None 0%float)
          1 0.9%float None ]
      12%Z in
  ~ (ResponseMetadata.isGrounded (ProcessedResponse.metadata r) = true <->
     ProcessedResponse.sources r <> []
     /\ forall phrasing,
          In phrasing listedPhrasings ->
          includes (toLowerCase (LLMResponse.content llmResponse)) phrasing = false).
Proof.
  intros llmResponse r [_ H].
  assert (Hg : ResponseMetadata.isGrounded (ProcessedResponse.metadata r) = false)
    by reflexivity.
  rewrite H in Hg; [discriminate|].
  split; [discriminate|].
  apply existsb_false_iff. reflexivity.
Qed.

End ResponseProcessorFacts.

(** ** Query analyzer *)

Section QueryAnalyzerFacts.
Import JS QueryAnalyzer.

Lemma calculateConfidence_bounds (query : string) (intent : QueryIntent) :
  let c := calculateConfidence query intent in
  PrimFloat.leb 0.3%float c = true /\ PrimFloat.leb c 0.9%float = true
  /\ PrimFloat.ltb 0%float c = true /\ PrimFloat.ltb c 1%float = true.
Proof.
  unfold calculateConfidence.
  destruct (20 <? String.length query), (50 <? String.length query),
    (negb (QueryIntent_eqb intent general)), (String.length query <? 10);
    vm_compute; auto.
Qed.

(** C10.  For every input string the confidence of [analyze] lies in the
    closed interval from 0.3 to 0.9, so that the clamp bounds 0 and 1 are
    never attained. *)
Theorem analyze_confidence_bounds :
  forall query : string,
    let c := AnalyzedQuery.confidence (analyze query) in
    PrimFloat.leb 0.3%float c = true /\ PrimFloat.leb c 0.9%float = true
    /\ PrimFloat.ltb 0%float c = true /\ PrimFloat.ltb c 1%float = true.
Proof.
  intros query. apply calculateConfidence_bounds.
Qed.

End QueryAnalyzerFacts.

(** ** Strings *)

Section StringFacts.
Import JS.

Lemma string_app_assoc (a b c : string) : ((a ++ b) ++ c = a ++ (b ++ c))%string.
Proof. induction a as [|x a IH]; simpl; [reflexivity|now rewrite IH]. Qed.

Lemma prefix_app (a b : string) : String.prefix a (a ++ b) = true.
Proof.
  induction a as [|x a IH]; simpl.
  - now destruct b.
  - destruct (ascii_dec x x) as [_|n]; [exact IH|now elim n].
Qed.

Lemma includes_unfold (s x : string) :
  includes s x =
  String.prefix x s || match s with
                       | EmptyString => false
                       | String _ r => includes r x
                       end.
Proof. now destruct s. Qed.

Lemma includes_prefix (a b : string) : includes (a ++ b) a = true.
Proof. now rewrite includes_unfold, prefix_app. Qed.

Lemma includes_app_l (a s x : string) : includes s x = true -> includes (a ++ s) x = true.
Proof.
  intros H. induction a as [|c a IH]; [exact H|].
  rewrite includes_unfold. cbn [String.append]. rewrite IH. apply orb_true_r.
Qed.

Lemma prefix_refl (a : string) : String.prefix a a = true.
Proof.
  induction a as [|x a IH]; simpl; [reflexivity|].
  destruct (ascii_dec x x) as [_|n]; [exact IH|now elim n].
Qed.

Lemma includes_refl (a : string) : includes a a = true.
Proof. now rewrite includes_unfold, prefix_refl. Qed.

Lemma includes_join (sep x : string) (l : list string) :
  In x l -> includes (join sep l) x = true.
Proof.
  induction l as [|p [|q rest] IH]; intros Hin.
  - destruct Hin.
  - destruct Hin as [->|[]]. apply includes_refl.
  - change (join sep (p :: q :: rest)) with (p ++ sep ++ join sep (q :: rest))%string.
    destruct Hin as [->|Hin]; [apply includes_prefix|].
    now apply includes_app_l, includes_app_l, IH.
Qed.

End StringFacts.

(** ** Prompt builder *)

Section PromptBuilderFacts.
Import JS PromptBuilder Spec.

Lemma totalTokens_app (a b : list RetrievedChunk.t) :
  totalTokens (a ++ b) = totalTokens a + totalTokens b.
Proof. unfold totalTokens. now rewrite map_app, list_sum_app. Qed.

(** The loop of [selectChunks] returns a prefix of its input; a chunk it
    accepts after another one keeps the running total within the budget;
    the chunk it stops at would exceed it. *)
Lemma selectFrom_spec (chunks : list RetrievedChunk.t) :
  forall selectedCount estimatedTokens,
    let selected := selectFrom selectedCount estimatedTokens chunks in
    exists rest,
      chunks = (selected ++ rest)%list
      /\ (forall pre x post,
            selected = (pre ++ x :: post)%list ->
            0 < selectedCount + List.length pre ->
            estimatedTokens + totalTokens pre + chunkTokens x <= MAX_CONTEXT_TOKENS)
      /\ (forall next rest',
            rest = next :: rest' ->
            MAX_CONTEXT_TOKENS < estimatedTokens + totalTokens selected + chunkTokens next
            /\ 0 < selectedCount + List.length selected).
Proof.
  induction chunks as [|chunk chunks IH]; intros n acc; cbn zeta.
  - exists []. repeat split.
    + intros pre x post H. now destruct pre.
    + discriminate.
    + discriminate.
  - cbn [selectFrom].
    destruct ((MAX_CONTEXT_TOKENS <? acc + chunkTokens chunk) && (0 <? n)) eqn:Hstop.
    + apply andb_true_iff in Hstop. destruct Hstop as [Hover Hsome].
      apply Nat.ltb_lt in Hover. apply Nat.ltb_lt in Hsome.
      exists (chunk :: chunks). split; [reflexivity|]. split.
      * intros pre x post H. now destruct pre.
      * intros next rest' H. injection H as <- <-.
        unfold totalTokens. simpl. lia.
    + destruct (IH (S n) (acc + chunkTokens chunk)) as (rest & Hsplit & Hin & Hout).
      exists rest. split; [simpl; now rewrite <- Hsplit|]. split.
      * intros pre x post H Hpos.
        destruct pre as [|p pre]; simpl in H; injection H as <- H.
        -- simpl in Hpos. unfold totalTokens. simpl.
           apply andb_false_iff in Hstop. destruct Hstop as [Hfit|Hnone].
           ++ apply Nat.ltb_ge in Hfit. lia.
           ++ apply Nat.ltb_ge in Hnone. lia.
        -- specialize (Hin pre x post H). unfold totalTokens in *. simpl in *. lia.
      * intros next rest' H. destruct (Hout next rest' H) as [Hover Hpos].
        unfold totalTokens in *. simpl in *. lia.
Qed.

Lemma selectChunks_head (first : RetrievedChunk.t) (more : list RetrievedChunk.t) :
  selectChunks (first :: more) = first :: selectFrom 1 (chunkTokens first) more.
Proof.
  unfold selectChunks. cbn [selectFrom]. now rewrite andb_false_r.
Qed.

Lemma join_cons (sep x : string) (l : list string) :
  exists tail, join sep (x :: l) = (x ++ tail)%string.
Proof.
  destruct l as [|y l].
  - exists EmptyString. simpl. induction x as [|c x IH]; simpl; [reflexivity|now rewrite <- IH].
  - now exists (sep ++ join sep (y :: l))%string.
Qed.

Variable toFixed1 : float -> string.

(** C6.  For a non-empty chunk list [build] always includes the first
    chunk, and renders it as source 1 of the context section, whatever
    its size.  The included chunks are a prefix of the list: every chunk
    accepted after the first keeps the running total within the budget,
    and the first chunk left out is one that would exceed it. *)
Theorem build_includes_first_and_selects_within_budget :
  forall (query : AnalyzedQuery.t) (chunks : list RetrievedChunk.t)
         (format : ResponseFormat),
    chunks <> [] ->
    let prompt := build toFixed1 query chunks format in
    let selected := BuiltPrompt.contextChunks prompt in
    (exists first more kept tail,
        chunks = first :: more
        /\ selected = first :: kept
        /\ BuiltPrompt.userPrompt prompt =
           ("## Context" ++ nl ++ nl
            ++ "### Source 1" ++ nl
            ++ "**Metadata**: " ++ metadataLine toFixed1 first ++ nl ++ nl
            ++ RetrievedChunk.content first ++ tail)%string)
    /\ (forall pre x post,
          selected = (pre ++ x :: post)%list ->
          pre <> [] ->
          totalTokens pre + chunkTokens x <= MAX_CONTEXT_TOKENS)
    /\ (exists rest,
          chunks = (selected ++ rest)%list
          /\ forall next rest',
               rest = next :: rest' ->
               MAX_CONTEXT_TOKENS < totalTokens selected + chunkTokens next).
Proof.
  intros query chunks format Hne prompt selected.
  destruct chunks as [|first more]; [now elim Hne|].
  assert (Hsel : selected = first :: selectFrom 1 (chunkTokens first) more)
    by apply selectChunks_head.
  destruct (selectFrom_spec (first :: more) 0 0) as (rest & Hsplit & Hin & Hout).
  fold (selectChunks (first :: more)) in Hsplit, Hin, Hout.
  change (selectChunks (first :: more)) with selected in Hsplit, Hin, Hout.
  split; [|split].
  - destruct (join_cons (nl ++ nl ++ "---" ++ nl ++ nl)
                ("### Source " ++ natToString (0 + 1) ++ nl
                 ++ "**Metadata**: " ++ metadataLine toFixed1 first ++ nl ++ nl
                 ++ RetrievedChunk.content first)
                (sectionsFrom toFixed1 1 (selectFrom 1 (chunkTokens first) more)))
      as [tail Htail].
    exists first, more, (selectFrom 1 (chunkTokens first) more),
      (tail ++ nl ++ nl
       ++ ("## Question" ++ nl ++ nl ++ AnalyzedQuery.original query)
       ++ constraints)%string.
    split; [reflexivity|]. split; [exact Hsel|].
    subst prompt. unfold build. cbn [BuiltPrompt.userPrompt].
    unfold buildUserPrompt. rewrite selectChunks_head.
    unfold buildContextSection. cbn [sectionsFrom]. rewrite Htail.
    change (natToString (0 + 1)) with "1".
    repeat rewrite string_app_assoc. reflexivity.
  - intros pre x post Hpre Hnonempty.
    specialize (Hin pre x post Hpre).
    destruct pre; [now elim Hnonempty|]. simpl in Hin. lia.
  - exists rest. split; [exact Hsplit|].
    intros next rest' Hrest. destruct (Hout next rest' Hrest) as [Hover _].
    exact Hover.
Qed.

(** C3, as the code has it.  The budget bounds the token estimates of the
    chunks [build] includes, not [estimatedTokens], which is the estimate
    for the whole text of the system and user prompts: the estimates of
    the included chunks sum to at most 4000, except when the first chunk
    alone exceeds 4000, and then it is the only chunk included. *)
Theorem build_context_within_budget :
  forall (query : AnalyzedQuery.t) (chunks : list RetrievedChunk.t)
         (format : ResponseFormat),
    let prompt := build toFixed1 query chunks format in
    BuiltPrompt.estimatedTokens prompt =
      estimateTokens (BuiltPrompt.systemPrompt prompt ++ BuiltPrompt.userPrompt prompt)
    /\ (totalTokens (BuiltPrompt.contextChunks prompt) <= 4000
        \/ exists first more,
             chunks = first :: more
             /\ 4000 < chunkTokens first
             /\ BuiltPrompt.contextChunks prompt = [first]).
Proof.
  intros query chunks format prompt. split; [reflexivity|].
  change (BuiltPrompt.contextChunks prompt) with (selectChunks chunks).
  destruct (selectFrom_spec chunks 0 0) as (rest & Hsplit & Hin & Hout).
  fold (selectChunks chunks) in Hsplit, Hin, Hout.
  change 4000 with MAX_CONTEXT_TOKENS.
  destruct chunks as [|first more]; [left; unfold totalTokens; simpl; lia|].
  rewrite selectChunks_head in *.
  destruct (selectFrom 1 (chunkTokens first) more) as [|second kept] eqn:Hkept.
  - destruct (Nat.le_gt_cases (chunkTokens first) MAX_CONTEXT_TOKENS) as [Hfit|Hover].
    + left. unfold totalTokens. simpl. lia.
    + right. exists first, more. auto.
  - left.
    destruct (@exists_last _ (second :: kept)) as (pre & x & Hlast); [discriminate|].
    rewrite Hlast.
    specialize (Hin (first :: pre) x []). rewrite Hlast in Hin.
    specialize (Hin eq_refl). simpl in Hin.
    change (first :: pre ++ [x])%list with ((first :: pre) ++ [x])%list.
    rewrite totalTokens_app.
    unfold totalTokens in *. simpl in *. lia.
Qed.

End PromptBuilderFacts.

(** C6, at a chunk of 20000 code units: it is included although its
    estimate of 5000 tokens alone exceeds the budget. *)
Lemma build_includes_first_and_selects_within_budget_witness :
  let big :=
    RetrievedChunk.mk
      (SearchResult.mk "c1" "d1" "p" (Spec.repeatString "a" 20000) 0.9%float txt None 0%float)
      1 0.9%float None in
  4000 < PromptBuilder.chunkTokens big
  /\ exists kept,
       BuiltPrompt.contextChunks
         (PromptBuilder.build JS.toFixed1
            (QueryAnalyzer.analyze "What is the authentication flow?") [big] markdown)
       = big :: kept.
Proof.
  intros big. split; [apply Nat.ltb_lt; vm_compute; reflexivity|].
  destruct (build_includes_first_and_selects_within_budget JS.toFixed1
              (QueryAnalyzer.analyze "What is the authentication flow?") [big] markdown)
    as [(first & more & kept & tail & Hchunks & Hsel & _) _]; [discriminate|].
  injection Hchunks as <- _. now exists kept.
Defined.

(** C3, counterexample.  One chunk of 16000 code units is estimated at
    exactly 4000 tokens, so it does not exceed the budget; the prompt
    built around it is estimated at 4383 tokens. *)
Lemma build_estimatedTokens_counterexample :
  let chunk :=
    RetrievedChunk.mk
      (SearchResult.mk "c1" "d1" "p" (Spec.repeatString "a" 16000) 0.9%float txt None 0%float)
      1 0.9%float None in
  let prompt :=
    PromptBuilder.build JS.toFixed1
      (QueryAnalyzer.analyze "What is the authentication flow?") [chunk] markdown in
  ~ (BuiltPrompt.estimatedTokens prompt <= 4000
     \/ exists first rest,
          BuiltPrompt.contextChunks prompt = first :: rest
          /\ 4000 < PromptBuilder.chunkTokens first).
Proof.
  intros chunk prompt [Hle|(first & rest & Hsel & Hover)].
  - revert Hle. vm_compute. intros Hle.
    apply Nat.leb_le in Hle. revert Hle. vm_compute. discriminate.
  - assert (Hc : BuiltPrompt.contextChunks prompt = [chunk]) by (vm_compute; reflexivity).
    rewrite Hc in Hsel. injection Hsel as <- _.
    revert Hover. assert (Ht : PromptBuilder.chunkTokens chunk = 4000) by (vm_compute; reflexivity).
    rewrite Ht. apply Nat.lt_irrefl.
Qed.

(** ** Retrieval service *)

Section RetrievalServiceFacts.
Import JS RetrievalService Spec.

(** *** The order of binary64 numbers *)

Lemma SFcompare_antisym (x y : spec_float) :
  SFcompare y x = option_map CompOpp (SFcompare x y).
Proof.
  destruct x as [sx|sx| |sx mx ex], y as [sy|sy| |sy my ey]; simpl; try reflexivity;
    try (destruct sx; reflexivity); try (destruct sy; reflexivity);
    try (destruct sx, sy; reflexivity).
  destruct sx, sy; simpl; try reflexivity;
    rewrite (Z.compare_antisym ex ey); destruct (ex ?= ey)%Z; simpl; try reflexivity;
    rewrite (Pos.compare_cont_antisym mx my Eq); reflexivity.
Qed.

Lemma SFcompare_none (x y : spec_float) :
  SFcompare x y = None -> SFeqb x x = false \/ SFeqb y y = false.
Proof.
  destruct x as [sx|sx| |sx mx ex], y as [sy|sy| |sy my ey]; simpl;
    try discriminate; auto.
Qed.

(** Two numbers that are not NaN are comparable. *)
Lemma ltb_false_leb (x y : float) :
  PrimFloat.is_nan x = false -> PrimFloat.is_nan y = false ->
  PrimFloat.ltb x y = false -> PrimFloat.leb y x = true.
Proof.
  unfold PrimFloat.is_nan. rewrite !negb_false_iff, !FloatAxioms.eqb_spec, FloatAxioms.ltb_spec, FloatAxioms.leb_spec.
  unfold SFltb, SFleb. rewrite (SFcompare_antisym (Prim2SF x) (Prim2SF y)).
  intros Hx Hy. destruct (SFcompare (Prim2SF x) (Prim2SF y)) as [[]|] eqn:Hc;
    simpl; try easy.
  destruct (SFcompare_none _ _ Hc) as [H|H]; congruence.
Qed.

Lemma ltb_leb (x y : float) : PrimFloat.ltb x y = true -> PrimFloat.leb x y = true.
Proof.
  rewrite FloatAxioms.ltb_spec, FloatAxioms.leb_spec. unfold SFltb, SFleb.
  now destruct (SFcompare (Prim2SF x) (Prim2SF y)) as [[]|].
Qed.

(** *** Reranking *)

Lemma insertSorted_length {A : Type} (after : A -> A -> bool) (x : A) (l : list A) :
  List.length (insertSorted after x l) = S (List.length l).
Proof.
  induction l as [|y r IH]; simpl; [reflexivity|].
  destruct (after x y); simpl; [now rewrite IH|reflexivity].
Qed.

Lemma sort_length {A : Type} (after : A -> A -> bool) (l : list A) :
  List.length (sort after l) = List.length l.
Proof.
  induction l as [|x r IH]; simpl; [reflexivity|].
  now rewrite insertSorted_length, IH.
Qed.

Lemma insertSorted_Forall {A : Type} (P : A -> Prop) (after : A -> A -> bool) x l :
  P x -> Forall P l -> Forall P (insertSorted after x l).
Proof.
  intros Hx Hl. induction Hl as [|y r Hy Hr IH]; simpl; [now constructor|].
  destruct (after x y); repeat constructor; auto.
Qed.

Lemma sort_Forall {A : Type} (P : A -> Prop) (after : A -> A -> bool) l :
  Forall P l -> Forall P (sort after l).
Proof.
  intros Hl. induction Hl as [|x r Hx Hr IH]; simpl; [constructor|].
  now apply insertSorted_Forall.
Qed.

Lemma insertSorted_nonIncreasing (x : RetrievedChunk.t) (l : list RetrievedChunk.t) :
  notNaN x -> Forall notNaN l ->
  nonIncreasing (scores l) ->
  nonIncreasing (scores (insertSorted scoreAfter x l)).
Proof.
  intros Hx Hl. induction Hl as [|y r Hy Hr IH]; intros Hs; [exact I|].
  cbn [insertSorted]. unfold scoreAfter at 1.
  destruct (PrimFloat.ltb (RetrievedChunk.score x) (RetrievedChunk.score y)) eqn:Hlt.
  - destruct r as [|z r'].
    + simpl. split; [now apply ltb_leb|exact I].
    + destruct Hs as [Hzy Hs]. specialize (IH Hs). revert IH.
      cbn [insertSorted]. destruct (scoreAfter x z); intros IH.
      * split; [exact Hzy|exact IH].
      * split; [now apply ltb_leb|exact IH].
  - split; [|exact Hs]. now apply ltb_false_leb.
Qed.

Lemma sort_nonIncreasing (l : list RetrievedChunk.t) :
  Forall notNaN l -> nonIncreasing (scores (sort scoreAfter l)).
Proof.
  intros Hl. induction Hl as [|x r Hx Hr IH]; [exact I|].
  cbn [sort fold_right]. apply insertSorted_nonIncreasing; auto.
  now apply sort_Forall.
Qed.

Lemma reassignRanksFrom_ranks (i : nat) (l : list RetrievedChunk.t) :
  ranks (reassignRanksFrom i l) = seq (i + 1) (List.length l).
Proof.
  revert i. induction l as [|c r IH]; intros i; simpl; [reflexivity|].
  f_equal. rewrite IH. now replace (S i + 1) with (S (i + 1)) by lia.
Qed.

Lemma reassignRanksFrom_scores (i : nat) (l : list RetrievedChunk.t) :
  scores (reassignRanksFrom i l) = scores l.
Proof.
  revert i. induction l as [|c r IH]; intros i; simpl; [reflexivity|].
  f_equal. apply IH.
Qed.

Lemma rerank_ranks chunks query : ranks (rerank chunks query) = seq 1 (List.length chunks).
Proof. unfold rerank. now rewrite reassignRanksFrom_ranks, sort_length. Qed.

Lemma toChunksFrom_ranks (i : nat) query (results : list SearchResult.t) :
  ranks (toChunksFrom i query results) = seq (i + 1) (List.length results).
Proof.
  revert i. induction results as [|r rest IH]; intros i; simpl; [reflexivity|].
  f_equal. rewrite IH. now replace (S i + 1) with (S (i + 1)) by lia.
Qed.

(** *** Deduplication *)

Lemma mapSet_absent (key : string) (value : RetrievedChunk.t) (m : SeenMap) :
  ~ In key (keys m) -> mapSet key value m = (m ++ [(key, value)])%list.
Proof.
  induction m as [|[k v] m IH]; simpl; [reflexivity|].
  intros H. destruct (String.eqb_spec key k) as [->|Hne]; [elim H; now left|].
  rewrite IH; [reflexivity|]. intros Hin. apply H. now right.
Qed.

Lemma mapSet_keys_present (key : string) (value : RetrievedChunk.t) (m : SeenMap) :
  In key (keys m) -> keys (mapSet key value m) = keys m.
Proof.
  induction m as [|[k v] m IH]; simpl; [tauto|].
  destruct (String.eqb_spec key k) as [->|Hne]; [reflexivity|].
  intros [Hk|Hin]; [now elim Hne|]. simpl. now rewrite IH.
Qed.

Lemma mapSet_in (key : string) (value : RetrievedChunk.t) (m : SeenMap) k v :
  In (k, v) (mapSet key value m) -> (k = key /\ v = value) \/ In (k, v) m.
Proof.
  induction m as [|[k' v'] m IH]; simpl.
  - intros [H|[]]. injection H as <- <-. now left.
  - destruct (String.eqb_spec key k') as [->|Hne]; simpl.
    + intros [H|H]; [injection H as <- <-; now left|now right; right].
    + intros [H|H]; [now right; left|]. destruct (IH H); [now left|now right; right].
Qed.

Lemma tracks_more met chunk seen : tracks met seen -> tracks (met ++ [chunk]) seen.
Proof.
  intros [Hk Hv]. split; [exact Hk|].
  intros k v Hin. destruct (Hv k v Hin) as (c & Hc & Hres & Hr & Hf).
  exists c. split; [apply in_or_app; now left|auto].
Qed.

Lemma tracks_set met chunk value seen :
  tracks met seen ->
  RetrievedChunk.result value = RetrievedChunk.result chunk ->
  RetrievedChunk.rank value = RetrievedChunk.rank chunk ->
  tracks (met ++ [chunk])
    (mapSet (createFingerprint (RetrievedChunk.content chunk)) value seen).
Proof.
  intros [Hk Hv] Hresult Hrank.
  set (key := createFingerprint (RetrievedChunk.content chunk)).
  split.
  - destruct (in_dec string_dec key (keys seen)) as [Hin|Hout].
    + now rewrite mapSet_keys_present.
    + rewrite mapSet_absent by exact Hout. unfold keys. rewrite map_app.
      apply NoDup_app; [exact Hk|repeat constructor; simpl; tauto|].
      intros a Ha [<-|[]]. now apply Hout.
  - intros k v Hin. apply mapSet_in in Hin. destruct Hin as [[-> ->]|Hin].
    + exists chunk. split; [apply in_or_app; right; now left|auto].
    + destruct (Hv k v Hin) as (c & Hc & Hres & Hr & Hf).
      exists c. split; [apply in_or_app; now left|auto].
Qed.

Lemma dedupStep_tracks met seen chunk :
  tracks met seen -> tracks (met ++ [chunk]) (dedupStep seen chunk).
Proof.
  intros H. unfold dedupStep.
  destruct (mapGet _ seen) as [existing|].
  - destruct (gt _ _); [now apply tracks_set|now apply tracks_more].
  - now apply tracks_set.
Qed.

Lemma fold_dedupStep_tracks (chunks : list RetrievedChunk.t) :
  forall met seen,
    tracks met seen -> tracks (met ++ chunks) (fold_left dedupStep chunks seen).
Proof.
  induction chunks as [|chunk chunks IH]; intros met seen H; simpl.
  - now rewrite app_nil_r.
  - replace (met ++ chunk :: chunks)%list with ((met ++ [chunk]) ++ chunks)%list
      by now rewrite <- app_assoc.
    apply IH. now apply dedupStep_tracks.
Qed.

Lemma NoDup_map_injective {A B : Type} (f : A -> B) (l : list A) :
  NoDup (map f l) -> forall x y, In x l -> In y l -> f x = f y -> x = y.
Proof.
  induction l as [|a l IH]; simpl; [intros _ x y []|].
  intros H x y Hx Hy Hf. inversion H as [|? ? Hnotin Hl]; subst.
  destruct Hx as [->|Hx], Hy as [->|Hy]; auto.
  - elim Hnotin. rewrite Hf. now apply in_map.
  - elim Hnotin. rewrite <- Hf. now apply in_map.
Qed.

Lemma tracks_ranks met seen :
  NoDup (ranks met) -> tracks met seen ->
  NoDup (ranks (map snd seen)) /\ incl (ranks (map snd seen)) (ranks met).
Proof.
  intros Hmet [Hk Hv]. split.
  - induction seen as [|[k v] seen IH]; simpl; [constructor|].
    inversion Hk as [|? ? Hnotin Hk']; subst.
    constructor.
    + intros Hin. unfold ranks in Hin. rewrite map_map in Hin.
      apply in_map_iff in Hin. destruct Hin as ([k' v'] & Hr & Hin'). simpl in Hr.
      destruct (Hv k v (or_introl eq_refl)) as (c & Hc & _ & Hrc & Hfc).
      destruct (Hv k' v' (or_intror Hin')) as (c' & Hc' & _ & Hrc' & Hfc').
      assert (Heq : c = c').
      { apply (NoDup_map_injective RetrievedChunk.rank met Hmet c c' Hc Hc'). congruence. }
      subst c'. apply Hnotin. apply in_map_iff. exists (k', v'). simpl.
      split; [congruence|exact Hin'].
    + apply IH; [exact Hk'|]. intros k' v' Hin. apply Hv. now right.
  - intros r Hr. unfold ranks in Hr. rewrite map_map in Hr.
    apply in_map_iff in Hr. destruct Hr as ([k v] & <- & Hin). simpl.
    destruct (Hv k v Hin) as (c & Hc & _ & Hrc & _). rewrite Hrc.
    now apply in_map.
Qed.

Lemma deduplicate_ranks (chunks : list RetrievedChunk.t) :
  NoDup (ranks chunks) ->
  NoDup (ranks (deduplicate chunks)) /\ incl (ranks (deduplicate chunks)) (ranks chunks).
Proof.
  intros H. apply tracks_ranks; [exact H|].
  apply (fold_dedupStep_tracks chunks [] []).
  split; [constructor|intros k v []].
Qed.

Lemma firstn_seq_dense (n start len : nat) :
  firstn n (seq start len) = seq start (List.length (firstn n (seq start len))).
Proof.
  revert start len. induction n as [|n IH]; intros start [|len]; simpl; try reflexivity.
  f_equal. apply IH.
Qed.

Lemma sliceLimit_ranks limit chunks :
  ranks (sliceLimit limit chunks)
  = match limit with
    | Some n => firstn n (ranks chunks)
    | None => ranks chunks
    end.
Proof. destruct limit; simpl; [symmetry; apply firstn_map|reflexivity]. Qed.

Lemma firstn_NoDup {A : Type} (n : nat) (l : list A) : NoDup l -> NoDup (firstn n l).
Proof.
  intros H. rewrite <- (firstn_skipn n l) in H. now apply NoDup_app_remove_r in H.
Qed.

Lemma firstn_in {A : Type} (n : nat) (l : list A) (x : A) : In x (firstn n l) -> In x l.
Proof.
  intros H. rewrite <- (firstn_skipn n l). apply in_or_app. now left.
Qed.

(** *** The pipeline *)

Lemma ranks_length (chunks : list RetrievedChunk.t) :
  List.length (ranks chunks) = List.length chunks.
Proof. apply length_map. Qed.

Lemma ranks_before_deduplication query (rerankFlag : bool) (results : list SearchResult.t) :
  ranks (if rerankFlag
         then rerank (toChunksFrom 0 query results) query
         else toChunksFrom 0 query results)
  = seq 1 (List.length results).
Proof.
  destruct rerankFlag.
  - rewrite rerank_ranks. f_equal.
    rewrite <- ranks_length, toChunksFrom_ranks. apply length_seq.
  - apply toChunksFrom_ranks.
Qed.

Lemma rankResults_ranks query opts results :
  let returned := rankResults query opts results in
  NoDup (ranks returned)
  /\ (forall r, In r (ranks returned) -> 1 <= r <= List.length results)
  /\ (isTrue (RetrievalOptions.deduplicate opts) = false ->
      ranks returned = seq 1 (List.length returned)).
Proof.
  unfold rankResults.
  pose proof (ranks_before_deduplication query (isTrue (RetrievalOptions.rerank opts)) results)
    as Hranked.
  set (ranked := if isTrue (RetrievalOptions.rerank opts)
                 then rerank (toChunksFrom 0 query results) query
                 else toChunksFrom 0 query results) in *.
  assert (Hdedup :
            let kept := if isTrue (RetrievalOptions.deduplicate opts)
                        then deduplicate ranked else ranked in
            NoDup (ranks kept) /\ incl (ranks kept) (seq 1 (List.length results))
            /\ (isTrue (RetrievalOptions.deduplicate opts) = false ->
                ranks kept = seq 1 (List.length results))).
  { destruct (isTrue (RetrievalOptions.deduplicate opts)); cbn zeta.
    - destruct (deduplicate_ranks ranked) as [Hnd Hincl];
        [rewrite Hranked; apply seq_NoDup|].
      rewrite Hranked in Hincl. repeat split; [exact Hnd|exact Hincl|discriminate].
    - rewrite Hranked. repeat split; [apply seq_NoDup|apply incl_refl]. }
  cbn zeta in Hdedup.
  set (kept := if isTrue (RetrievalOptions.deduplicate opts)
               then deduplicate ranked else ranked) in *.
  destruct Hdedup as (Hnd & Hincl & Hdense).
  cbn zeta. rewrite sliceLimit_ranks. split; [|split].
  - destruct (RetrievalOptions.limit opts); [now apply firstn_NoDup|exact Hnd].
  - intros r Hr.
    assert (Hin : In r (ranks kept))
      by (destruct (RetrievalOptions.limit opts); [now apply firstn_in in Hr|exact Hr]).
    apply Hincl, in_seq in Hin. lia.
  - intros Hoff. specialize (Hdense Hoff).
    rewrite <- (ranks_length (sliceLimit _ kept)), sliceLimit_ranks, Hdense.
    destruct (RetrievalOptions.limit opts).
    + apply firstn_seq_dense.
    + now rewrite length_seq.
Qed.

(** C5, as the code has it.  For every chunk list the output of [rerank]
    has the ranks 1..N in this order, and, when no score is NaN, scores
    that do not increase along it.  The list [retrieve] returns is this
    list after deduplication and truncation, which keep the ranks as they
    are: its ranks are pairwise distinct, and they are 1..M for its length
    M when deduplication is disabled, but deduplication can leave gaps. *)
Theorem rerank_ranks_dense_retrieve_ranks_distinct :
  forall query : AnalyzedQuery.t,
    (forall chunks : list RetrievedChunk.t,
        ranks (rerank chunks query) = seq 1 (List.length chunks)
        /\ (Forall notNaN chunks -> nonIncreasing (scores (rerank chunks query))))
    /\ (forall embed search options returned,
          retrieve embed search query options = Returns returned ->
          NoDup (ranks returned)
          /\ (isTrue (RetrievalOptions.deduplicate
                        (RetrievalOptions.spread DEFAULT_RETRIEVAL_OPTIONS options)) = false ->
              ranks returned = seq 1 (List.length returned))).
Proof.
  intros query. split.
  - intros chunks. split; [apply rerank_ranks|].
    intros Hnan. unfold rerank. rewrite reassignRanksFrom_scores.
    now apply sort_nonIncreasing.
  - intros embed search options returned. unfold retrieve.
    destruct (embed _) as [queryEmbedding|]; [|discriminate]. cbn [bind].
    destruct (search _ _) as [results|]; [|discriminate]. cbn [bind].
    intros H. injection H as <-.
    destruct (rankResults_ranks query
                (RetrievalOptions.spread DEFAULT_RETRIEVAL_OPTIONS options) results)
      as (Hnd & _ & Hdense).
    split; assumption.
Qed.

(** *** One fingerprint in the loop of deduplication *)

Lemma mapGet_mapSet_same (key : string) (value : RetrievedChunk.t) (m : SeenMap) :
  mapGet key (mapSet key value m) = Some value.
Proof.
  induction m as [|[k v] m IH]; simpl; [now rewrite String.eqb_refl|].
  destruct (String.eqb_spec key k) as [->|Hne]; simpl.
  - now rewrite String.eqb_refl.
  - destruct (String.eqb_spec key k) as [->|_]; [now elim Hne|exact IH].
Qed.

Lemma mapGet_mapSet_other (key other : string) (value : RetrievedChunk.t) (m : SeenMap) :
  other <> key -> mapGet key (mapSet other value m) = mapGet key m.
Proof.
  intros Hne. induction m as [|[k v] m IH]; simpl.
  - destruct (String.eqb_spec key other) as [->|_]; [now elim Hne|reflexivity].
  - destruct (String.eqb_spec other k) as [->|Hk]; simpl.
    + destruct (String.eqb_spec key k) as [->|_]; [now elim Hne|reflexivity].
    + now rewrite IH.
Qed.

Lemma dedupStep_other (key : string) (seen : SeenMap) (chunk : RetrievedChunk.t) :
  fingerprintOf chunk <> key -> mapGet key (dedupStep seen chunk) = mapGet key seen.
Proof.
  intros Hne. unfold dedupStep. fold (fingerprintOf chunk).
  destruct (mapGet (fingerprintOf chunk) seen) as [existing|].
  - destruct (gt _ _); [now apply mapGet_mapSet_other|reflexivity].
  - now apply mapGet_mapSet_other.
Qed.

Lemma fold_dedupStep_other (key : string) (chunks : list RetrievedChunk.t) :
  (forall c, In c chunks -> fingerprintOf c <> key) ->
  forall seen, mapGet key (fold_left dedupStep chunks seen) = mapGet key seen.
Proof.
  induction chunks as [|chunk chunks IH]; intros Hother seen; simpl; [reflexivity|].
  rewrite IH by (intros c Hc; apply Hother; now right).
  apply dedupStep_other, Hother. now left.
Qed.

Lemma filter_none {A : Type} (f : A -> bool) (l : list A) :
  (forall x, In x l -> f x = false) -> filter f l = [].
Proof.
  induction l as [|a l IH]; intros H; simpl; [reflexivity|].
  rewrite (H a (or_introl eq_refl)). apply IH. intros x Hx. apply H. now right.
Qed.

Lemma tracks_withFingerprint met seen (key : string) (v : RetrievedChunk.t) :
  tracks met seen -> mapGet key seen = Some v ->
  withFingerprint key (map snd seen) = [v].
Proof.
  intros [Hk Hv]. unfold withFingerprint.
  assert (Hfp : forall k w, In (k, w) seen -> fingerprintOf w = k).
  { intros k w Hin. destruct (Hv k w Hin) as (c & _ & Hres & _ & <-).
    unfold fingerprintOf, RetrievedChunk.content. now rewrite Hres. }
  clear Hv. induction seen as [|[k w] seen IH]; simpl; [discriminate|].
  inversion Hk as [|? ? Hnotin Hk']; subst.
  rewrite (Hfp k w (or_introl eq_refl)).
  destruct (String.eqb_spec key k) as [->|Hne].
  - intros H. injection H as ->. rewrite String.eqb_refl. f_equal.
    apply filter_none.
    intros c Hc. apply in_map_iff in Hc. destruct Hc as ([k' w'] & <- & Hin). simpl.
    rewrite (Hfp k' w' (or_intror Hin)). apply String.eqb_neq.
    intros ->. apply Hnotin. apply in_map_iff. now exists (k, w').
  - intros Hget. destruct (String.eqb_spec k key) as [->|_]; [now elim Hne|].
    apply IH; [exact Hk'| |exact Hget]. intros k' w' Hin. apply Hfp. now right.
Qed.

(** The survivors of a fingerprint after the whole loop, from the entry
    of the fingerprint in the final map. *)
Lemma deduplicate_withFingerprint chunks (key : string) (v : RetrievedChunk.t) :
  mapGet key (fold_left dedupStep chunks []) = Some v ->
  withFingerprint key (deduplicate chunks) = [v].
Proof.
  apply tracks_withFingerprint with (met := chunks).
  apply (fold_dedupStep_tracks chunks [] []).
  split; [constructor|intros k w []].
Qed.

(** C2, as the code has it.  Take a candidate list in which exactly two
    chunks have a given fingerprint, with the scores 0.9 and 0.7.
    Deduplication retains, for this fingerprint, exactly the chunk that
    scores 0.9.  It records the identifier of the other chunk as
    [duplicateOf] only when the chunk that scores 0.9 comes second and
    replaces it; met in the order 0.9, 0.7, the retained chunk is returned
    as it was. *)
Theorem deduplicate_keeps_higher_score :
  forall (a b : RetrievedChunk.t) (pre mid post : list RetrievedChunk.t),
    fingerprintOf a = fingerprintOf b ->
    RetrievedChunk.score a = 0.9%float ->
    RetrievedChunk.score b = 0.7%float ->
    (forall c, In c (pre ++ mid ++ post) -> fingerprintOf c <> fingerprintOf a) ->
    withFingerprint (fingerprintOf a) (deduplicate (pre ++ a :: mid ++ b :: post)) = [a]
    /\ withFingerprint (fingerprintOf a) (deduplicate (pre ++ b :: mid ++ a :: post))
       = [withDuplicateOf a (RetrievedChunk.chunkId b)].
Proof.
  intros a b pre mid post Hfp Ha Hb Hother.
  set (key := fingerprintOf a) in *.
  assert (Hpre : forall c, In c pre -> fingerprintOf c <> key)
    by (intros c Hc; apply Hother, in_or_app; now left).
  assert (Hmid : forall c, In c mid -> fingerprintOf c <> key)
    by (intros c Hc; apply Hother, in_or_app; right; apply in_or_app; now left).
  assert (Hpost : forall c, In c post -> fingerprintOf c <> key)
    by (intros c Hc; apply Hother, in_or_app; right; apply in_or_app; now right).
  assert (Hstart : mapGet key (fold_left dedupStep pre []) = None)
    by now rewrite fold_dedupStep_other.
  set (seen := fold_left dedupStep pre []) in *.
  split; apply deduplicate_withFingerprint;
    rewrite fold_left_app; fold seen; cbn [fold_left];
    rewrite fold_left_app; cbn [fold_left];
    rewrite (fold_dedupStep_other key post Hpost).
  - assert (Hfirst : mapGet key (fold_left dedupStep mid (dedupStep seen a)) = Some a).
    { rewrite (fold_dedupStep_other key mid Hmid). unfold dedupStep.
      fold (fingerprintOf a). fold key. rewrite Hstart. apply mapGet_mapSet_same. }
    unfold dedupStep at 1. fold (fingerprintOf b). rewrite <- Hfp. fold key.
    rewrite Hfirst, Ha, Hb. exact Hfirst.
  - assert (Hfirst : mapGet key (fold_left dedupStep mid (dedupStep seen b)) = Some b).
    { rewrite (fold_dedupStep_other key mid Hmid). unfold dedupStep.
      fold (fingerprintOf b). rewrite <- Hfp. fold key. rewrite Hstart.
      apply mapGet_mapSet_same. }
    unfold dedupStep at 1. fold (fingerprintOf a). fold key.
    rewrite Hfirst, Ha, Hb. apply mapGet_mapSet_same.
Qed.

End RetrievalServiceFacts.

Lemma deduplicate_keeps_higher_score_witness :
  Spec.withFingerprint (Spec.fingerprintOf exampleChunkA)
    (RetrievalService.deduplicate [exampleChunkA; exampleChunkB]) = [exampleChunkA]
  /\ Spec.withFingerprint (Spec.fingerprintOf exampleChunkA)
       (RetrievalService.deduplicate [exampleChunkB; exampleChunkA])
     = [RetrievalService.withDuplicateOf exampleChunkA "chunk-b"].
Proof.
  assert (Hfingerprint : Spec.fingerprintOf exampleChunkA = Spec.fingerprintOf exampleChunkB)
    by (vm_compute; reflexivity).
  assert (Honly : forall c, In c ([] ++ [] ++ []) ->
                            Spec.fingerprintOf c <> Spec.fingerprintOf exampleChunkA)
    by (intros c []).
  exact (deduplicate_keeps_higher_score exampleChunkA exampleChunkB [] [] []
           Hfingerprint eq_refl eq_refl Honly).
Defined.

(** C2, counterexample.  Two chunks with the same fingerprint met in the
    order 0.9, 0.7: the chunk that scores 0.9 is retained, but no
    [duplicateOf] is recorded on it. *)
Lemma deduplicate_duplicateOf_counterexample :
  RetrievalService.createFingerprint (RetrievedChunk.content exampleChunkA)
    = RetrievalService.createFingerprint (RetrievedChunk.content exampleChunkB)
  /\ RetrievedChunk.score exampleChunkA = 0.9%float
  /\ RetrievedChunk.score exampleChunkB = 0.7%float
  /\ map RetrievedChunk.chunkId
       (RetrievalService.deduplicate [exampleChunkA; exampleChunkB])
     = ["chunk-a"]
  /\ map RetrievedChunk.duplicateOf
       (RetrievalService.deduplicate [exampleChunkA; exampleChunkB])
     <> [Some (RetrievedChunk.chunkId exampleChunkB)].
Proof.
  repeat split; try (vm_compute; reflexivity).
  vm_compute. discriminate.
Qed.

Lemma rerank_ranks_dense_retrieve_ranks_distinct_witness :
  Spec.nonIncreasing
    (Spec.scores
       (RetrievalService.rerank [exampleChunkB; exampleChunkA]
          (QueryAnalyzer.analyze "How are tokens issued?")))
  /\ NoDup
       (Spec.ranks
          (RetrievalService.rankResults (QueryAnalyzer.analyze "How are tokens issued?")
             (RetrievalOptions.spread RetrievalService.DEFAULT_RETRIEVAL_OPTIONS
                noRetrievalOptions)
             exampleResults)).
Proof.
  destruct (rerank_ranks_dense_retrieve_ranks_distinct
              (QueryAnalyzer.analyze "How are tokens issued?")) as [Hrerank Hretrieve].
  split.
  - apply (proj2 (Hrerank [exampleChunkB; exampleChunkA])).
    repeat constructor.
  - apply (proj1 (Hretrieve exampleEmbed exampleSearch noRetrievalOptions _ eq_refl)).
Defined.

(** C5, counterexample.  The second of three results duplicates the
    first: [retrieve] returns the chunks ranked 1 and 3. *)
Lemma retrieve_ranks_gap_counterexample :
  exists returned,
    RetrievalService.retrieve exampleEmbed exampleSearch
      (QueryAnalyzer.analyze "How are tokens issued?") noRetrievalOptions
    = JS.Returns returned
    /\ Spec.ranks returned = [1; 3]
    /\ Spec.ranks returned <> seq 1 (List.length returned).
Proof.
  eexists. split; [vm_compute; reflexivity|].
  split; [reflexivity|discriminate].
Qed.

(** ** LLM service *)

Section LLMServiceFacts.
Import JS LLMService Spec.

Lemma chatFrom_all_fail messages options (providers : list LLMProvider.t) :
  (forall provider, In provider providers -> responds messages options provider = false) ->
  forall errors,
    chatFrom providers messages options errors
    = Throws (aggregateMessage (errors ++ flat_map (recordedError messages options) providers)).
Proof.
  induction providers as [|provider rest IH]; intros Hfail errors; cbn [chatFrom flat_map].
  - now rewrite app_nil_r.
  - assert (Hrest : forall q, In q rest -> responds messages options q = false)
      by (intros q Hq; apply Hfail; now right).
    specialize (Hfail provider (or_introl eq_refl)).
    unfold responds in Hfail. unfold recordedError at 1.
    destruct (LLMProvider.isAvailable provider) as [[|]|reason].
    + destruct (LLMProvider.chat provider messages options) as [response|reason];
        [discriminate|].
      rewrite (IH Hrest). now rewrite <- app_assoc.
    + now rewrite (IH Hrest).
    + rewrite (IH Hrest). now rewrite <- app_assoc.
Qed.

(** C4, as the code has it.  If no provider responds, [chat] throws, and
    the message lists, in order, the name and the reason of every provider
    whose probe or call threw; a provider skipped as unavailable is not
    listed.  No response is returned. *)
Theorem chat_all_fail_aggregates_thrown_errors :
  forall (providers : list LLMProvider.t) (messages : list Message.t)
         (options : LLMOptions.t),
    (forall provider, In provider providers -> responds messages options provider = false) ->
    let message :=
      aggregateMessage (flat_map (recordedError messages options) providers) in
    chat providers messages options = Throws message
    /\ forall provider reason,
         In provider providers ->
         recordedError messages options provider = [(LLMProvider.name provider, reason)] ->
         includes message (LLMProvider.name provider ++ " (" ++ reason ++ ")") = true.
Proof.
  intros providers messages options Hfail message. split.
  - unfold chat. now rewrite chatFrom_all_fail.
  - intros provider reason Hin Hrec. unfold message, aggregateMessage.
    apply includes_app_l, includes_join, in_map_iff.
    exists (LLMProvider.name provider, reason). split; [reflexivity|].
    apply in_flat_map. exists provider. split; [exact Hin|].
    rewrite Hrec. now left.
Qed.

End LLMServiceFacts.

Lemma chat_all_fail_aggregates_thrown_errors_witness :
  LLMService.chat [offlineProvider; rejectingProvider] [] noLLMOptions
  = JS.Throws "All LLM providers failed: openai (OpenAI error: 401)".
Proof.
  apply (proj1 (chat_all_fail_aggregates_thrown_errors
                  [offlineProvider; rejectingProvider] [] noLLMOptions
                  ltac:(intros provider [<-|[<-|[]]]; reflexivity))).
Defined.

(** C4, counterexample.  Both providers fail, one of them skipped by the
    probe: the message of the error does not contain the name of the
    skipped provider. *)
Lemma chat_skipped_provider_counterexample :
  Spec.responds [] noLLMOptions offlineProvider = false
  /\ Spec.responds [] noLLMOptions rejectingProvider = false
  /\ exists message,
       LLMService.chat [offlineProvider; rejectingProvider] [] noLLMOptions
       = JS.Throws message
       /\ JS.includes message (LLMProvider.name offlineProvider) = false.
Proof.
  split; [reflexivity|]. split; [reflexivity|].
  eexists. split; [vm_compute; reflexivity|reflexivity].
Qed.

(** ** Query engine *)

Section QueryEngineFacts.
Import JS QueryEngine.
Variable toFixed1 : float -> string.

(** C8.  Whatever the question, the options of the caller and the
    behaviour of the clock and of the two services are, [query] calls
    [retrieve] exactly once, with the limit 10 and the threshold 0.6; these
    override the defaults of the retrieval service, whose threshold is 0.3,
    and of the options of the caller only [projectId] is passed on. *)
Theorem query_retrieves_with_fixed_limit_and_threshold :
  forall (w : World) (reads : nat) (question : string) (options : QueryOptions.t),
    retrievalCalls (snd (run w (query toFixed1 question options) reads))
    = [ (QueryAnalyzer.analyze question,
         RetrievalOptions.mk (QueryOptions.projectId options) None
           (Some 10) (Some 0.6%float) None None) ]
    /\ (let effective :=
          RetrievalOptions.spread RetrievalService.DEFAULT_RETRIEVAL_OPTIONS
            (RetrievalOptions.mk (QueryOptions.projectId options) None
               (Some 10) (Some 0.6%float) None None) in
        RetrievalOptions.limit effective = Some 10
        /\ RetrievalOptions.threshold effective = Some 0.6%float)
    /\ RetrievalOptions.threshold RetrievalService.DEFAULT_RETRIEVAL_OPTIONS = Some 0.3%float.
Proof.
  intros w reads question options.
  split; [|split; [split|]; reflexivity].
  unfold query, failed.
  assert (Hproject :
            QueryOptions.projectId (QueryOptions.spread DEFAULT_QUERY_OPTIONS options)
            = QueryOptions.projectId options)
    by (simpl; now destruct (QueryOptions.projectId options)).
  unfold retrievalOptionsOf. rewrite Hproject.
  cbn [run respond readsAfter observe fst snd app retrievalCalls flat_map].
  destruct (retrieval w _ _) as [[|chunk chunks]|reason];
    cbn [run respond readsAfter observe fst snd app retrievalCalls flat_map];
    try reflexivity.
  destruct (generation w _ _) as [llmResponse|reason];
    cbn [run respond readsAfter observe fst snd app retrievalCalls flat_map];
    reflexivity.
Qed.

(** C9.  The canned response for the case of no chunks always reports
    [isGrounded = true] and [hasCitations = false] with no sources and the
    confidence [insufficient], although its answer fails the grounding
    check: [checkGrounding] is false for it, as no citation can be
    resolved from it.  This is the response of [query] when retrieval
    returns no chunk: a success with the canned answer, no sources, the
    confidence [insufficient], and no call to the LLM service. *)
Theorem processNoInfoResponse_grounded_without_citations :
  (forall processingTimeMs : Z,
      let r := ResponseProcessor.processNoInfoResponse processingTimeMs in
      ResponseMetadata.isGrounded (ProcessedResponse.metadata r) = true
      /\ ResponseMetadata.hasCitations (ProcessedResponse.metadata r) = false
      /\ ProcessedResponse.sources r = []
      /\ ProcessedResponse.confidence r = insufficient
      /\ ResponseProcessor.checkGrounding
           (ProcessedResponse.answer r) (ProcessedResponse.sources r) = false
      /\ forall contextChunks,
           ResponseProcessor.extractCitations (ProcessedResponse.answer r) contextChunks = [])
  /\ (forall (w : World) (reads : nat) (question : string) (options : QueryOptions.t),
        let retrievalOptions :=
          retrievalOptionsOf (QueryOptions.spread DEFAULT_QUERY_OPTIONS options) in
        retrieval w (QueryAnalyzer.analyze question) retrievalOptions = Returns [] ->
        let outcome := run w (query toFixed1 question options) reads in
        QueryResult.success (fst outcome) = true
        /\ QueryResult.answer (fst outcome)
           = ProcessedResponse.answer
               (ResponseProcessor.processNoInfoResponse
                  (clock w (3 + reads) - clock w reads))
        /\ QueryResult.sources (fst outcome) = []
        /\ QueryResult.confidence (fst outcome) = insufficient
        /\ QueryResult.error (fst outcome) = None
        /\ snd outcome = [Retrieved (QueryAnalyzer.analyze question) retrievalOptions]).
Proof.
  split.
  - intros processingTimeMs r. repeat split.
  - intros w reads question options retrievalOptions Hnone outcome.
    subst outcome. unfold query.
    cbn [run respond readsAfter observe fst snd app].
    fold retrievalOptions. rewrite Hnone.
    cbn [run respond readsAfter observe fst snd app].
    repeat split.
Qed.

End QueryEngineFacts.

Lemma processNoInfoResponse_grounded_without_citations_witness :
  let w :=
    QueryEngine.mkWorld (fun n => Z.of_nat (5 * n))
      (fun _ _ => JS.Returns [])
      (fun _ _ => JS.Throws "not reached") in
  let outcome :=
    QueryEngine.run w
      (QueryEngine.query JS.toFixed1 "What is the authentication flow?"
         (QueryOptions.mk None None None None None)) 0 in
  QueryResult.success (fst outcome) = true
  /\ QueryResult.confidence (fst outcome) = insufficient
  /\ QueryResult.sources (fst outcome) = [].
Proof.
  intros w outcome.
  destruct (proj2 (processNoInfoResponse_grounded_without_citations JS.toFixed1)
              w 0 "What is the authentication flow?"
              (QueryOptions.mk None None None None None) eq_refl)
    as (Hsuccess & _ & Hsources & Hconfidence & _).
  repeat split; assumption.
Defined.

(** ** LLM service: the fallback chain *)

Section LLMServiceChain.
Import JS LLMService Spec.

Lemma chatFrom_skips messages options (pre : list LLMProvider.t) :
  (forall q, In q pre -> responds messages options q = false) ->
  forall rest errors,
    chatFrom (pre ++ rest) messages options errors
    = chatFrom rest messages options
        (errors ++ flat_map (recordedError messages options) pre).
Proof.
  induction pre as [|q pre IH]; intros Hfail rest errors; cbn [app flat_map chatFrom].
  - now rewrite app_nil_r.
  - assert (Hpre : forall r, In r pre -> responds messages options r = false)
      by (intros r Hr; apply Hfail; now right).
    specialize (Hfail q (or_introl eq_refl)).
    unfold responds in Hfail. unfold recordedError at 1.
    destruct (LLMProvider.isAvailable q) as [[|]|reason].
    + destruct (LLMProvider.chat q messages options) as [response|reason];
        [discriminate|].
      rewrite (IH Hpre). now rewrite <- app_assoc.
    + now rewrite (IH Hpre).
    + rewrite (IH Hpre). now rewrite <- app_assoc.
Qed.

(** X1.  The first provider that is available and whose call returns
    decides: [chat] returns exactly its response, whatever providers come
    after it and whatever they would do. *)
Theorem chat_first_responder_wins :
  forall (pre post : list LLMProvider.t) (provider : LLMProvider.t)
         (messages : list Message.t) (options : LLMOptions.t) (response : LLMResponse.t),
    (forall q, In q pre -> responds messages options q = false) ->
    LLMProvider.isAvailable provider = Returns true ->
    LLMProvider.chat provider messages options = Returns response ->
    chat (pre ++ provider :: post) messages options = Returns response.
Proof.
  intros pre post provider messages options response Hpre Havailable Hchat.
  unfold chat. rewrite (chatFrom_skips messages options pre Hpre).
  cbn [chatFrom]. now rewrite Havailable, Hchat.
Qed.

Lemma responds_split messages options (providers : list LLMProvider.t) :
  (forall p, In p providers -> responds messages options p = false)
  \/ exists pre p post,
       providers = (pre ++ p :: post)%list
       /\ (forall q, In q pre -> responds messages options q = false)
       /\ responds messages options p = true.
Proof.
  induction providers as [|p rest IH]; [left; intros p []|].
  destruct (responds messages options p) eqn:Hp.
  - right. exists [], p, rest. repeat split; auto. intros q [].
  - destruct IH as [Hall|(pre & q & post & -> & Hpre & Hq)].
    + left. intros q [<-|Hq]; auto.
    + right. exists (p :: pre), q, post. repeat split; auto.
      intros r [<-|Hr]; auto.
Qed.

(** X2.  What [chat] does is decided by the providers alone.  A response
    it returns is the response of the first provider that is available
    and whose call returns; it throws exactly when there is no such
    provider, with the message made of the recorded errors. *)
Theorem chat_outcome :
  forall (providers : list LLMProvider.t) (messages : list Message.t)
         (options : LLMOptions.t),
    match chat providers messages options with
    | Returns response =>
        exists pre provider post,
          providers = (pre ++ provider :: post)%list
          /\ (forall q, In q pre -> responds messages options q = false)
          /\ LLMProvider.isAvailable provider = Returns true
          /\ LLMProvider.chat provider messages options = Returns response
    | Throws message =>
        (forall p, In p providers -> responds messages options p = false)
        /\ message = aggregateMessage (flat_map (recordedError messages options) providers)
    end.
Proof.
  intros providers messages options.
  destruct (responds_split messages options providers)
    as [Hall|(pre & p & post & -> & Hpre & Hp)].
  - unfold chat. rewrite (chatFrom_all_fail messages options providers Hall []).
    split; [exact Hall|reflexivity].
  - unfold responds in Hp.
    destruct (LLMProvider.isAvailable p) as [[|]|reason] eqn:Havailable; try discriminate.
    destruct (LLMProvider.chat p messages options) as [response|reason] eqn:Hchat;
      [|discriminate].
    unfold chat. rewrite (chatFrom_skips messages options pre Hpre).
    cbn [chatFrom]. rewrite Havailable, Hchat.
    exists pre, p, post. auto.
Qed.



End LLMServiceChain.

Lemma chat_first_responder_wins_witness :
  LLMService.chat [offlineProvider; rejectingProvider;
                   LLMProvider.mk "kimi" "https://api.moonshot.cn/v1" "kimi-k2.5" 256000
                     (fun _ _ => JS.Returns (LLMResponse.mk "ok [source:1]" (Some 7) "kimi-k2.5" kimi))
                     (JS.Returns true) (fun _ => 0%float);
                   offlineProvider] [] noLLMOptions
  = JS.Returns (LLMResponse.mk "ok [source:1]" (Some 7) "kimi-k2.5" kimi).
Proof.
  apply (chat_first_responder_wins [offlineProvider; rejectingProvider] [offlineProvider]).
  - intros q [<-|[<-|[]]]; reflexivity.
  - reflexivity.
  - reflexivity.
Defined.


(** ** LLM service: the providers of a configuration *)

Section LLMServiceInitialize.
Import JS LLMService.
Variable call :
  ProviderTag -> string -> string -> list Message.t -> LLMOptions.t -> Outcome LLMResponse.t.
Variable probe : ProviderTag -> string -> Outcome bool.

(** X4.  [initialize] on a new service sets up LM Studio first and then
    DeepSeek, Kimi and OpenAI, each only when its key is configured and
    not empty, so one to four providers in this fixed order; a second
    [initialize], made after the first has completed, changes nothing,
    with any configuration. *)
Theorem initialize_orders_providers_once :
  forall config : Config,
    let service := initialize call probe config newService in
    map LLMProvider.name (providers service)
    = (["lmstudio"]
       ++ (if hasKey (deepseekApiKey config) then ["deepseek"] else [])
       ++ (if hasKey (kimiApiKey config) then ["kimi"] else [])
       ++ (if hasKey (openaiApiKey config) then ["openai"] else []))%list
    /\ 1 <= List.length (providers service) <= 4
    /\ forall again : Config, initialize call probe again service = service.
Proof.
  intros config service. subst service. unfold initialize, configuredProviders, hasKey.
  cbn [isInitialized newService providers app].
  destruct (configuredKey (deepseekApiKey config)),
           (configuredKey (kimiApiKey config)),
           (configuredKey (openaiApiKey config));
    cbn; repeat split; lia.
Qed.

End LLMServiceInitialize.

(** ** Sorting *)

Section SortFacts.
Import JS.
Context {A : Type} (after : A -> A -> bool).

Lemma insertSorted_perm (x : A) (l : list A) :
  Permutation (insertSorted after x l) (x :: l).
Proof.
  induction l as [|y r IH]; simpl; [reflexivity|].
  destruct (after x y); [|reflexivity].
  rewrite IH. apply perm_swap.
Qed.

Lemma sort_perm (l : list A) : Permutation (sort after l) l.
Proof.
  induction l as [|x r IH]; simpl; [reflexivity|].
  rewrite insertSorted_perm. now constructor.
Qed.

(** Neighbours in the result are in the order the comparator asks for,
    whenever the comparator never asks for both orders. *)
Lemma sort_sorted (R : A -> A -> Prop) :
  (forall x y, after x y = false -> R x y) ->
  (forall x y, after x y = true -> R y x) ->
  forall l, Sorted R (sort after l).
Proof.
  intros Hkeep Hswap.
  assert (Hinsert : forall x l, Sorted R l -> Sorted R (insertSorted after x l)).
  { intros x l. induction l as [|y r IH]; intros Hs; simpl; [repeat constructor|].
    destruct (after x y) eqn:Hxy.
    - inversion Hs as [|? ? Hr Hhd]; subst. constructor; [now apply IH|].
      destruct r as [|z r']; simpl.
      + constructor. now apply Hswap.
      + destruct (after x z); constructor; [now inversion Hhd|now apply Hswap].
    - constructor; [exact Hs|constructor; now apply Hkeep]. }
  induction l as [|x r IH]; simpl; [constructor|now apply Hinsert].
Qed.


End SortFacts.

(** ** Response processor: citations *)

Section CitationFacts.
Import JS ResponseProcessor Spec.

Lemma setAdd_NoDup (n : N) (seen : list N) : NoDup seen -> NoDup (setAdd n seen).
Proof.
  intros H. unfold setAdd. destruct (existsb (N.eqb n) seen) eqn:Hin; [exact H|].
  apply NoDup_app; [exact H|repeat constructor; simpl; tauto|].
  intros a Ha [Heq|[]]. subst a.
  assert (Ht : existsb (N.eqb n) seen = true)
    by (apply existsb_exists; exists n; split; [exact Ha|apply N.eqb_refl]).
  congruence.
Qed.

Lemma scanMarkers_NoDup (s : string) :
  forall skip seen, NoDup seen -> NoDup (scanMarkers skip s seen).
Proof.
  induction s as [|c r IH]; intros skip seen H; [exact H|].
  cbn [scanMarkers]. destruct skip as [|k]; [|now apply IH].
  destruct (markerAt (String c r)) as [[ds len]|]; apply IH; [now apply setAdd_NoDup|exact H].
Qed.

Lemma citation_numbers (chunks : list RetrievedChunk.t) (numbers : list N) :
  map SourceCitation.number (flat_map (citationOf chunks) numbers)
  = filter (resolves chunks) numbers.
Proof.
  induction numbers as [|n rest IH]; [reflexivity|].
  cbn [flat_map filter]. rewrite map_app, IH.
  unfold citationOf, resolves. now destruct (chunkAt chunks n).
Qed.

Lemma chunkAt_bounds (chunks : list RetrievedChunk.t) (n : N) (chunk : RetrievedChunk.t) :
  chunkAt chunks n = Some chunk ->
  (1 <= n <= N.of_nat (List.length chunks))%N
  /\ nth_error chunks (N.to_nat n - 1) = Some chunk.
Proof.
  destruct n as [|p]; simpl; [discriminate|].
  intros H. split; [|exact H].
  assert (Hlt : Pos.to_nat p - 1 < List.length chunks)
    by (apply nth_error_Some; congruence).
  lia.
Qed.

Lemma citation_in (content : string) (chunks : list RetrievedChunk.t)
  (citation : SourceCitation.t) :
  In citation (extractCitations content chunks) ->
  exists n chunk,
    In n (citedNumbers content)
    /\ chunkAt chunks n = Some chunk
    /\ citation = SourceCitation.mk n (RetrievedChunk.chunkId chunk)
                    (RetrievedChunk.documentId chunk)
                    (excerpt (RetrievedChunk.content chunk))
                    (RetrievedChunk.score chunk).
Proof.
  intros Hin. unfold extractCitations in Hin.
  apply (Permutation_in _ (sort_perm numberAfter _)) in Hin.
  apply in_flat_map in Hin. destruct Hin as (n & Hn & Hc).
  unfold citationOf in Hc. destruct (chunkAt chunks n) as [chunk|] eqn:Hat; [|destruct Hc].
  destruct Hc as [<-|[]]. now exists n, chunk.
Qed.

(** X5.  No citation is made up.  Every citation [process] reports carries the
    number of a marker of the answer, between 1 and the number of chunks,
    and the identifiers and the score of the chunk at this position, with
    the excerpt of its content. *)
Theorem extractCitations_resolves_positions :
  forall (content : string) (chunks : list RetrievedChunk.t) (citation : SourceCitation.t),
    In citation (extractCitations content chunks) ->
    In (SourceCitation.number citation) (citedNumbers content)
    /\ (1 <= SourceCitation.number citation <= N.of_nat (List.length chunks))%N
    /\ exists chunk,
         nth_error chunks (N.to_nat (SourceCitation.number citation) - 1) = Some chunk
         /\ SourceCitation.chunkId citation = RetrievedChunk.chunkId chunk
         /\ SourceCitation.documentId citation = RetrievedChunk.documentId chunk
         /\ SourceCitation.content citation = excerpt (RetrievedChunk.content chunk)
         /\ SourceCitation.relevance citation = RetrievedChunk.score chunk.
Proof.
  intros content chunks citation Hin.
  destruct (citation_in content chunks citation Hin) as (n & chunk & Hn & Hat & ->).
  cbn [SourceCitation.number].
  destruct (chunkAt_bounds chunks n chunk Hat) as [Hbounds Hnth].
  split; [exact Hn|]. split; [exact Hbounds|].
  exists chunk. repeat split. exact Hnth.
Qed.

Lemma Sorted_le_NoDup_lt (l : list N) : Sorted N.le l -> NoDup l -> StronglySorted N.lt l.
Proof.
  intros Hs Hnd. apply Sorted_StronglySorted; [intros x y z; apply N.lt_trans|].
  induction Hs as [|a l Hl IH Hhd]; [constructor|].
  inversion Hnd as [|? ? Hnotin Hnd']; subst.
  constructor; [now apply IH|].
  destruct Hhd as [|b l' Hab]; constructor.
  assert (a <> b) by (intros ->; apply Hnotin; now left).
  lia.
Qed.

Lemma Sorted_map_number (l : list SourceCitation.t) :
  Sorted (fun a b => (SourceCitation.number a <= SourceCitation.number b)%N) l ->
  Sorted N.le (map SourceCitation.number l).
Proof.
  induction 1 as [|a l Hl IH Hhd]; simpl; [constructor|].
  constructor; [exact IH|]. destruct Hhd; simpl; now constructor.
Qed.

Lemma sliceTo_length (n : nat) (s : string) :
  String.length (sliceTo n s) = Nat.min n (String.length s).
Proof.
  unfold sliceTo. revert s. induction n as [|n IH]; intros [|c r]; simpl; auto.
Qed.

Lemma sliceTo_all (n : nat) (s : string) : String.length s <= n -> sliceTo n s = s.
Proof.
  unfold sliceTo. revert s. induction n as [|n IH]; intros [|c r]; simpl; auto;
    intros H; [lia|]. f_equal. apply IH. lia.
Qed.

Lemma sliceTo_prefix (n : nat) (s : string) : String.prefix (sliceTo n s) s = true.
Proof.
  unfold sliceTo. revert s. induction n as [|n IH]; intros [|c r]; simpl; auto.
  destruct (ascii_dec c c) as [_|Hne]; [apply IH|now elim Hne].
Qed.

Lemma string_length_app (a b : string) :
  String.length (a ++ b) = String.length a + String.length b.
Proof. induction a as [|c a IH]; simpl; [reflexivity|now rewrite IH]. Qed.

Lemma string_app_nil_r (a : string) : (a ++ EmptyString)%string = a.
Proof. induction a as [|c a IH]; simpl; [reflexivity|now rewrite IH]. Qed.

(** X6.  The excerpt a citation carries is the content of the chunk when this
    has at most 200 code units, and its first 200 code units followed by
    three dots otherwise; it never has more than 203 code units. *)
Theorem excerpt_bounded :
  forall content : string,
    String.length (excerpt content) <= 203
    /\ (String.length content <= 200 -> excerpt content = content)
    /\ (200 < String.length content ->
        excerpt content = (sliceTo 200 content ++ "...")%string
        /\ String.prefix (sliceTo 200 content) content = true
        /\ String.length (excerpt content) = 203).
Proof.
  intros content. unfold excerpt.
  destruct (200 <? String.length content) eqn:Hlong.
  - apply Nat.ltb_lt in Hlong. rewrite string_length_app, sliceTo_length.
    cbn [String.length]. repeat split; try lia. apply sliceTo_prefix.
  - apply Nat.ltb_ge in Hlong. rewrite string_app_nil_r, sliceTo_all by exact Hlong.
    repeat split; lia.
Qed.

(** X7.  The citations come in strictly ascending order of their numbers, so
    no number is reported twice, and there are never more citations than
    chunks. *)
Theorem extractCitations_ascending :
  forall (content : string) (chunks : list RetrievedChunk.t),
    StronglySorted N.lt (map SourceCitation.number (extractCitations content chunks))
    /\ List.length (extractCitations content chunks) <= List.length chunks.
Proof.
  intros content chunks.
  assert (Hnd : NoDup (map SourceCitation.number (extractCitations content chunks))).
  { unfold extractCitations.
    apply (Permutation_NoDup
             (Permutation_sym (Permutation_map _ (sort_perm numberAfter _)))).
    rewrite citation_numbers. apply NoDup_filter.
    apply scanMarkers_NoDup. constructor. }
  split.
  - apply Sorted_le_NoDup_lt; [|exact Hnd].
    apply Sorted_map_number. unfold extractCitations.
    apply sort_sorted; unfold numberAfter; intros x y H.
    + apply N.ltb_ge in H. exact H.
    + apply N.ltb_lt in H. lia.
  - rewrite <- (length_map SourceCitation.number).
    replace (List.length chunks)
      with (List.length (map N.of_nat (seq 1 (List.length chunks))))
      by now rewrite length_map, length_seq.
    apply NoDup_incl_length; [exact Hnd|].
    intros n Hn. apply in_map_iff in Hn. destruct Hn as (c & Heq & Hc).
    destruct (citation_in content chunks c Hc) as (m & chunk & _ & Hat & Hmk).
    subst c n. cbn [SourceCitation.number].
    destruct (chunkAt_bounds chunks m chunk Hat) as [Hb _].
    apply in_map_iff. exists (N.to_nat m).
    split; [lia|]. apply in_seq. lia.
Qed.

End CitationFacts.

(** ** Response processor: the level high *)

Section ConfidenceFacts.
Import JS ResponseProcessor Spec.

(** X8.  Without an admission, the confidence is [high] in three cases only,
    each with at least one citation: no hedging phrase and a mean cited
    relevance above 0.8; no hedging phrase, a mean above 0.6 and two
    citations or more; a hedging phrase, a mean above 0.8 and three
    citations or more. *)
Theorem process_confidence_high_iff :
  forall (llmResponse : LLMResponse.t) (contextChunks : list RetrievedChunk.t)
         (processingTimeMs : Z),
    let r := process llmResponse contextChunks processingTimeMs in
    let content := LLMResponse.content llmResponse in
    let citations := ProcessedResponse.sources r in
    admitsNoInformation content = false ->
    (ProcessedResponse.confidence r = high <->
     citations <> []
     /\ ((hasUncertainty content = false
          /\ (gt (avgRelevance citations) 0.8%float = true
              \/ (gt (avgRelevance citations) 0.6%float = true
                  /\ 2 <= List.length citations)))
         \/ (hasUncertainty content = true
             /\ gt (avgRelevance citations) 0.8%float = true
             /\ 3 <= List.length citations))).
Proof.
  intros llmResponse contextChunks processingTimeMs r content citations Hadmit.
  subst r citations. cbn [process ProcessedResponse.confidence ProcessedResponse.sources].
  fold content. unfold determineConfidence. rewrite Hadmit.
  generalize (extractCitations content contextChunks). intros citations.
  destruct (hasUncertainty content);
    destruct citations as [|c1 [|c2 [|c3 rest]]]; cbv zeta.
  all: match goal with
       | |- context [gt (avgRelevance ?l) _] => generalize (avgRelevance l); intros avg
       end.
  all: destruct (gt avg 0.8%float); destruct (gt avg 0.6%float).
  all: cbn [List.length Nat.leb Nat.ltb negb].
  all: match goal with
       | |- (?lhs = high) <-> _ =>
           let v := eval vm_compute in lhs in change lhs with v
       end.
  all: split;
    [ intros H;
      first [ discriminate H
            | split; [discriminate|]; simpl; intuition (auto; try lia) ]
    | intros [Hne [[Hu [Ha|[Ha Hl]]]|[Hu [Ha Hl]]]];
      first [ reflexivity | discriminate | now elim Hne
            | exfalso; simpl in *; lia ] ].
Qed.

End ConfidenceFacts.

Lemma excerpt_bounded_witness :
  ResponseProcessor.excerpt "Tokens are issued on login." = "Tokens are issued on login.".
Proof.
  refine (proj1 (proj2 (excerpt_bounded "Tokens are issued on login.")) _).
  apply Nat.leb_le. vm_compute. reflexivity.
Defined.

Lemma process_confidence_high_iff_witness :
  ProcessedResponse.confidence
    (ResponseProcessor.process
       (LLMResponse.mk "Tokens are issued on login [source:1]." None "m" lmstudio)
       [exampleChunkA] 12%Z)
  = high.
Proof.
  assert (Hadmit :
            ResponseProcessor.admitsNoInformation
              (LLMResponse.content
                 (LLMResponse.mk "Tokens are issued on login [source:1]." None "m" lmstudio))
            = false) by (vm_compute; reflexivity).
  refine (proj2 (process_confidence_high_iff
                   (LLMResponse.mk "Tokens are issued on login [source:1]." None "m" lmstudio)
                   [exampleChunkA] 12%Z Hadmit) _).
  split; [vm_compute; discriminate|].
  left. split; [vm_compute; reflexivity|].
  left. vm_compute. reflexivity.
Defined.

(** ** Query analyzer: the normalized text and the keywords *)

Section AnalyzerFacts.
Import JS Regex QueryAnalyzer Spec.

Lemma lowerChar_idempotent (c : ascii) : lowerChar (lowerChar c) = lowerChar c.
Proof. destruct c as [[] [] [] [] [] [] [] []]; reflexivity. Qed.

Lemma lowerChar_space (c : ascii) : isSpace (lowerChar c) = isSpace c.
Proof. destruct c as [[] [] [] [] [] [] [] []]; reflexivity. Qed.













Lemma singleSpaced_collapseFrom inRun s :
  singleSpacedFrom inRun (collapseFrom inRun s) = true.
Proof.
  revert inRun. induction s as [|c r IH]; intros inRun; simpl; [reflexivity|].
  destruct (isSpace c) eqn:Hc; [destruct inRun|].
  - apply IH.
  - simpl. apply IH.
  - simpl. rewrite Hc. apply IH.
Qed.



Lemma allChars_keepAlphanumeric s : allChars isKeywordChar (keepAlphanumeric s) = true.
Proof.
  induction s as [|c r IH]; simpl; [reflexivity|].
  fold (isKeywordChar c). destruct (isKeywordChar c) eqn:Hc; [|exact IH].
  simpl. now rewrite Hc.
Qed.

(** X10.  Every keyword is a non-empty string of lower-case letters and digits,
    and there are never more keywords than pieces of the text between
    white space. *)
Theorem extractKeywords_alphanumeric :
  forall query : string,
    (forall keyword,
        In keyword (extractKeywords query) ->
        keyword <> EmptyString /\ allChars isKeywordChar keyword = true)
    /\ List.length (extractKeywords query) <= List.length (splitWhitespace query).
Proof.
  intros query. unfold extractKeywords. split.
  - intros keyword Hin. apply filter_In in Hin. destruct Hin as [Hin Hne].
    split; [now destruct keyword|].
    apply in_map_iff in Hin. destruct Hin as (w & <- & _).
    apply allChars_keepAlphanumeric.
  - etransitivity; [apply filter_length_le|].
    rewrite length_map. apply filter_length_le.
Qed.

Lemma test_AnyStar (query : string) : test AnyStar query = true.
Proof.
  unfold test. destruct query as [|c r]; cbn; [reflexivity|].
  destruct (isDotChar c && _); reflexivity.
Qed.

Lemma firstIntent_first_match (query : string) (table : list (QueryIntent * list Regex.t)) :
  (exists intent regexes, In (intent, regexes) table /\ anyMatches regexes query = true) ->
  exists before regexes after,
    table = (before ++ (firstIntent table query, regexes) :: after)%list
    /\ anyMatches regexes query = true
    /\ forall intent rs, In (intent, rs) before -> anyMatches rs query = false.
Proof.
  induction table as [|[intent regexes] rest IH]; intros (i & rs & Hin & Hm); [destruct Hin|].
  cbn [firstIntent]. fold (anyMatches regexes query).
  destruct (anyMatches regexes query) eqn:Hhere.
  - exists [], regexes, rest. repeat split; [exact Hhere|intros j r []].
  - destruct IH as (before & regexes' & after & Hsplit & Hmatch & Hnone).
    { destruct Hin as [Heq|Hin]; [injection Heq as -> ->; congruence|].
      now exists i, rs. }
    exists ((intent, regexes) :: before), regexes', after.
    split; [simpl; now rewrite <- Hsplit|]. split; [exact Hmatch|].
    intros j r [Heq|Hj]; [injection Heq as <- <-; exact Hhere|now apply (Hnone j)].
Qed.

(** X11.  The order of the table decides.  The intent of a query is the first
    entry of the pattern table one of whose patterns matches: no pattern
    of an earlier entry matches the query.  There is always such an entry,
    the last one, [general], matching every text. *)
Theorem detectIntent_first_match :
  forall query : string,
    exists before regexes after,
      patterns = (before ++ (detectIntent query, regexes) :: after)%list
      /\ anyMatches regexes query = true
      /\ forall intent rs, In (intent, rs) before -> anyMatches rs query = false.
Proof.
  intros query. apply firstIntent_first_match.
  exists general, [AnyStar]. split.
  - unfold patterns. simpl. tauto.
  - unfold anyMatches. simpl. now rewrite test_AnyStar.
Qed.

(** X12.  Whatever the query, the document types [analyze] infers are two or
    three distinct types and plain text is one of them; they are all
    three exactly when the intent is [general]. *)
Theorem analyze_documentTypes_include_txt :
  forall query : string,
    let analyzed := analyze query in
    In txt (AnalyzedQuery.documentTypes analyzed)
    /\ NoDup (AnalyzedQuery.documentTypes analyzed)
    /\ 2 <= List.length (AnalyzedQuery.documentTypes analyzed) <= 3
    /\ (List.length (AnalyzedQuery.documentTypes analyzed) = 3
        <-> AnalyzedQuery.intent analyzed = general).
Proof.
  intros query analyzed. subst analyzed. unfold analyze.
  cbn [AnalyzedQuery.documentTypes AnalyzedQuery.intent].
  destruct (detectIntent (normalize query)); cbn;
    (split; [tauto|]); (split; [repeat constructor; cbn; intuition discriminate|]);
    (split; [lia|]); split; (discriminate || reflexivity || (intros; congruence) || idtac).
Qed.

End AnalyzerFacts.

(** ** Numbers: the order is transitive *)

Section FloatOrderFacts.

Lemma SFleb_trans (x y z : spec_float) :
  SFleb x y = true -> SFleb y z = true -> SFleb x z = true.
Proof.
  unfold SFleb.
  destruct x as [sx|sx| |sx mx ex], y as [sy|sy| |sy my ey], z as [sz|sz| |sz mz ez];
    simpl; try discriminate; try reflexivity;
    try (destruct sx; simpl; try discriminate; try reflexivity);
    try (destruct sy; simpl; try discriminate; try reflexivity);
    try (destruct sz; simpl; try discriminate; try reflexivity).
  all: repeat match goal with
         | |- context [PosDef.Pos.compare_cont Eq ?p ?q] =>
             change (PosDef.Pos.compare_cont Eq p q) with (Pos.compare p q)
         end.
  all: destruct (Z.compare_spec ex ey); destruct (Z.compare_spec ey ez);
    destruct (Z.compare_spec ex ez); simpl; try discriminate; try reflexivity; try lia;
    subst.
  all: destruct (Pos.compare_spec mx my); destruct (Pos.compare_spec my mz);
    destruct (Pos.compare_spec mx mz); simpl; try discriminate; try reflexivity; try lia.
Qed.

Lemma leb_trans (x y z : float) :
  PrimFloat.leb x y = true -> PrimFloat.leb y z = true -> PrimFloat.leb x z = true.
Proof. rewrite !FloatAxioms.leb_spec. apply SFleb_trans. Qed.

Lemma leb_refl (x : float) : PrimFloat.is_nan x = false -> PrimFloat.leb x x = true.
Proof. intros H. apply ltb_false_leb; auto. unfold PrimFloat.is_nan in H.
  rewrite FloatAxioms.ltb_spec. unfold SFltb.
  rewrite negb_false_iff, FloatAxioms.eqb_spec in H. unfold SFeqb in H.
  now destruct (SFcompare (Prim2SF x) (Prim2SF x)) as [[]|].
Qed.

Lemma leb_not_ltb (x y : float) : PrimFloat.leb x y = true -> PrimFloat.ltb y x = false.
Proof.
  rewrite FloatAxioms.leb_spec, FloatAxioms.ltb_spec. unfold SFleb, SFltb.
  rewrite (SFcompare_antisym (Prim2SF x) (Prim2SF y)).
  now destruct (SFcompare (Prim2SF x) (Prim2SF y)) as [[]|].
Qed.


End FloatOrderFacts.

(** ** Retrieval service: scoring and deduplication *)

Section DeduplicationFacts.
Import JS RetrievalService Spec.

(** X13.  A combined score is never above 1: [calculateScore] returns a number
    that is at most 1, or NaN when the product it clamps is NaN. *)
Theorem calculateScore_at_most_one :
  forall (result : SearchResult.t) (query : AnalyzedQuery.t),
    PrimFloat.is_nan (calculateScore result query) = true
    \/ PrimFloat.leb (calculateScore result query) 1%float = true.
Proof.
  intros result query. unfold calculateScore. cbv zeta.
  match goal with |- context [Math_min 1%float ?x] => generalize x end.
  intros x. unfold Math_min.
  change (PrimFloat.is_nan 1%float) with false. cbv iota.
  destruct (PrimFloat.is_nan x) eqn:Hnan; [now left|right].
  destruct (PrimFloat.ltb 1%float x) eqn:H1; [reflexivity|].
  destruct (PrimFloat.ltb x 1%float) eqn:H2; [now apply ltb_leb|].
  change (isNegZero 1%float) with false. cbv iota.
  now apply ltb_false_leb.
Qed.

Lemma mapGet_in (key : string) (m : SeenMap) (v : RetrievedChunk.t) :
  mapGet key m = Some v -> In (key, v) m.
Proof.
  induction m as [|[k w] m IH]; simpl; [discriminate|].
  destruct (String.eqb_spec key k) as [->|Hne].
  - intros H. injection H as ->. now left.
  - intros H. right. now apply IH.
Qed.

Lemma mapGet_absent (key : string) (m : SeenMap) :
  mapGet key m = None -> ~ In key (keys m).
Proof.
  induction m as [|[k v] m IH]; simpl; [tauto|].
  destruct (String.eqb_spec key k) as [->|Hne]; [discriminate|].
  intros H [Hk|Hin]; [now elim Hne|now apply IH].
Qed.

Lemma keptFrom_more met chunk k v : keptFrom met k v -> keptFrom (met ++ [chunk]) k v.
Proof.
  intros (c & Hc & Hk & Hv). exists c. split; [apply in_or_app; now left|].
  split; [exact Hk|]. destruct Hv as [->|(e & He & Hek & Hgt & ->)]; [now left|].
  right. exists e. split; [apply in_or_app; now left|auto].
Qed.

Lemma keptFrom_fingerprint met k v : keptFrom met k v -> fingerprintOf v = k.
Proof. intros (c & _ & <- & [->|(e & _ & _ & _ & ->)]); reflexivity. Qed.

Lemma keptFrom_score met k v :
  keptFrom met k v ->
  exists c, In c met /\ fingerprintOf c = k
            /\ RetrievedChunk.score v = RetrievedChunk.score c
            /\ RetrievedChunk.chunkId v = RetrievedChunk.chunkId c.
Proof.
  intros (c & Hc & Hk & [->|(e & _ & _ & _ & ->)]); exists c; auto.
Qed.

Lemma complete_set met chunk value seen :
  complete met seen ->
  keptFrom (met ++ [chunk]) (fingerprintOf chunk) value ->
  complete (met ++ [chunk]) (mapSet (fingerprintOf chunk) value seen).
Proof.
  intros (Hk & Hv & Hcover) Hvalue.
  set (key := fingerprintOf chunk) in *.
  assert (Hkeys : keys (mapSet key value seen) = keys seen
                  \/ keys (mapSet key value seen) = (keys seen ++ [key])%list
                     /\ ~ In key (keys seen)).
  { destruct (in_dec string_dec key (keys seen)) as [Hin|Hout].
    - left. now apply mapSet_keys_present.
    - right. split; [|exact Hout]. rewrite mapSet_absent by exact Hout.
      unfold keys. now rewrite map_app. }
  split; [|split].
  - destruct Hkeys as [->|[-> Hout]]; [exact Hk|].
    apply NoDup_app; [exact Hk|repeat constructor; simpl; tauto|].
    intros a Ha [Heq|[]]. subst a. now apply Hout.
  - intros k v Hin. apply mapSet_in in Hin. destruct Hin as [[-> ->]|Hin]; [exact Hvalue|].
    now apply keptFrom_more, Hv.
  - intros c Hc. apply in_app_or in Hc. destruct Hc as [Hc|[<-|[]]].
    + specialize (Hcover c Hc).
      destruct Hkeys as [->|[-> _]]; [exact Hcover|apply in_or_app; now left].
    + fold key. destruct Hkeys as [Hsame|[-> _]]; [|apply in_or_app; right; now left].
      rewrite Hsame. destruct (in_dec string_dec key (keys seen)) as [Hin|Hout]; [exact Hin|].
      exfalso. rewrite mapSet_absent in Hsame by exact Hout.
      unfold keys in Hsame. rewrite map_app in Hsame.
      apply (f_equal (@List.length string)) in Hsame.
      rewrite length_app in Hsame. simpl in Hsame. lia.
Qed.

Lemma dedupStep_complete met seen chunk :
  complete met seen -> complete (met ++ [chunk]) (dedupStep seen chunk).
Proof.
  intros Hcomplete. unfold dedupStep. fold (fingerprintOf chunk).
  destruct (mapGet (fingerprintOf chunk) seen) as [existing|] eqn:Hget.
  - pose proof Hcomplete as (Hk & Hv & Hcover).
    pose proof (Hv _ _ (mapGet_in _ _ _ Hget)) as Hexisting.
    destruct (gt (RetrievedChunk.score chunk) (RetrievedChunk.score existing)) eqn:Hgt.
    + apply complete_set; [exact Hcomplete|].
      destruct (keptFrom_score _ _ _ Hexisting) as (e & He & Hek & Hscore & Hid).
      exists chunk. split; [apply in_or_app; right; now left|]. split; [reflexivity|].
      right. exists e. split; [apply in_or_app; now left|].
      split; [exact Hek|]. split; [now rewrite <- Hscore|now rewrite Hid].
    + split; [exact Hk|]. split.
      * intros k v Hin. now apply keptFrom_more, Hv.
      * intros c Hc. apply in_app_or in Hc. destruct Hc as [Hc|[<-|[]]]; [now apply Hcover|].
        apply in_map_iff. exists (fingerprintOf chunk, existing).
        split; [reflexivity|now apply mapGet_in].
  - apply complete_set; [exact Hcomplete|].
    exists chunk. split; [apply in_or_app; right; now left|]. split; [reflexivity|now left].
Qed.

Lemma fold_dedupStep_complete (chunks : list RetrievedChunk.t) :
  forall met seen,
    complete met seen -> complete (met ++ chunks) (fold_left dedupStep chunks seen).
Proof.
  induction chunks as [|chunk chunks IH]; intros met seen H; simpl.
  - now rewrite app_nil_r.
  - replace (met ++ chunk :: chunks)%list with ((met ++ [chunk]) ++ chunks)%list
      by now rewrite <- app_assoc.
    apply IH. now apply dedupStep_complete.
Qed.

Lemma deduplicate_complete (chunks : list RetrievedChunk.t) :
  complete chunks (fold_left dedupStep chunks []).
Proof.
  apply (fold_dedupStep_complete chunks [] []).
  split; [constructor|]. split; [intros k v []|intros c []].
Qed.

Lemma complete_fingerprints met seen :
  complete met seen -> map fingerprintOf (map snd seen) = keys seen.
Proof.
  intros (_ & Hv & _). induction seen as [|[k v] seen IH]; [reflexivity|].
  simpl. rewrite (keptFrom_fingerprint met k v) by (apply Hv; now left).
  f_equal. apply IH. intros k' v' Hin. apply Hv. now right.
Qed.

(** X14.  Deduplication leaves exactly one chunk for every fingerprint of the
    list: the survivors have pairwise distinct fingerprints, every chunk
    of the list has a survivor with its fingerprint, and there are not
    more survivors than chunks. *)
Theorem deduplicate_one_per_fingerprint :
  forall chunks : list RetrievedChunk.t,
    NoDup (map fingerprintOf (deduplicate chunks))
    /\ (forall c, In c chunks ->
                  exists s, In s (deduplicate chunks) /\ fingerprintOf s = fingerprintOf c)
    /\ List.length (deduplicate chunks) <= List.length chunks.
Proof.
  intros chunks. pose proof (deduplicate_complete chunks) as Hcomplete.
  pose proof (complete_fingerprints _ _ Hcomplete) as Hfp.
  destruct Hcomplete as (Hk & Hv & Hcover). unfold deduplicate.
  split; [now rewrite Hfp|]. split.
  - intros c Hc. specialize (Hcover c Hc). rewrite <- Hfp in Hcover.
    apply in_map_iff in Hcover. destruct Hcover as (s & Hs & Hin). now exists s.
  - rewrite <- (length_map fingerprintOf), Hfp, <- (length_map fingerprintOf chunks).
    apply NoDup_incl_length; [exact Hk|].
    intros k Hin. apply in_map_iff in Hin. destruct Hin as ([k' v] & <- & Hin). simpl.
    destruct (Hv k' v Hin) as (c & Hc & <- & _). now apply in_map.
Qed.

(** X15.  Every survivor of deduplication is a chunk of the list, unchanged or
    with a [duplicateOf] set; a [duplicateOf] that deduplication sets is
    the identifier of a chunk of the list with the same fingerprint and a
    strictly lower score. *)
Theorem deduplicate_survivors_from_input :
  forall (chunks : list RetrievedChunk.t) (s : RetrievedChunk.t),
    In s (deduplicate chunks) ->
    exists c,
      In c chunks
      /\ (s = c
          \/ exists e,
               In e chunks
               /\ fingerprintOf e = fingerprintOf c
               /\ gt (RetrievedChunk.score c) (RetrievedChunk.score e) = true
               /\ s = withDuplicateOf c (RetrievedChunk.chunkId e)).
Proof.
  intros chunks s Hin. destruct (deduplicate_complete chunks) as (_ & Hv & _).
  unfold deduplicate in Hin. apply in_map_iff in Hin. destruct Hin as ([k v] & <- & Hin).
  destruct (Hv k v Hin) as (c & Hc & Hk & Hcase). exists c. split; [exact Hc|].
  destruct Hcase as [->|(e & He & Hek & Hgt & ->)]; [now left|].
  right. exists e. repeat split; auto. congruence.
Qed.





Lemma mapSet_values_Forall (P : RetrievedChunk.t -> Prop) key value (m : SeenMap) :
  P value -> Forall P (map snd m) -> Forall P (map snd (mapSet key value m)).
Proof.
  intros Hvalue. induction m as [|[k v] m IH]; simpl; intros H.
  - now repeat constructor.
  - inversion H as [|? ? Hv Hm]; subst.
    destruct (String.eqb key k); simpl; constructor; auto.
Qed.

Lemma dedupStep_notNaN seen chunk :
  notNaN chunk -> Forall notNaN (map snd seen) ->
  Forall notNaN (map snd (dedupStep seen chunk)).
Proof.
  intros Hchunk Hseen. unfold dedupStep.
  destruct (mapGet _ seen) as [existing|];
    [destruct (gt _ _)|]; auto; now apply mapSet_values_Forall.
Qed.

Lemma dedupStep_dominates met seen chunk :
  notNaN chunk -> Forall notNaN (map snd seen) ->
  dominates met seen -> dominates (met ++ [chunk]) (dedupStep seen chunk).
Proof.
  intros Hchunk Hseen Hdom c Hc. unfold dedupStep. fold (fingerprintOf chunk).
  destruct (mapGet (fingerprintOf chunk) seen) as [existing|] eqn:Hget.
  - assert (Hexisting : notNaN existing).
    { apply mapGet_in in Hget. rewrite Forall_forall in Hseen. apply Hseen.
      apply in_map_iff. now exists (fingerprintOf chunk, existing). }
    unfold gt.
    destruct (PrimFloat.ltb (RetrievedChunk.score existing) (RetrievedChunk.score chunk))
      eqn:Hlt.
    + destruct (String.eqb_spec (fingerprintOf c) (fingerprintOf chunk)) as [Heq|Hne].
      * rewrite Heq, mapGet_mapSet_same. eexists. split; [reflexivity|].
        cbn [withDuplicateOf RetrievedChunk.score].
        apply in_app_or in Hc. destruct Hc as [Hc|[<-|[]]]; [|now apply leb_refl].
        destruct (Hdom c Hc) as (v & Hv & Hle). rewrite Heq, Hget in Hv.
        injection Hv as <-. apply (leb_trans _ _ _ Hle). now apply ltb_leb.
      * rewrite mapGet_mapSet_other by congruence.
        apply in_app_or in Hc. destruct Hc as [Hc|[<-|[]]]; [now apply Hdom|now elim Hne].
    + apply in_app_or in Hc. destruct Hc as [Hc|[<-|[]]]; [now apply Hdom|].
      exists existing. split; [exact Hget|]. now apply ltb_false_leb.
  - destruct (String.eqb_spec (fingerprintOf c) (fingerprintOf chunk)) as [Heq|Hne].
    + rewrite Heq, mapGet_mapSet_same. eexists. split; [reflexivity|].
      apply in_app_or in Hc. destruct Hc as [Hc|[<-|[]]]; [|now apply leb_refl].
      destruct (Hdom c Hc) as (v & Hv & _). rewrite Heq, Hget in Hv. discriminate.
    + rewrite mapGet_mapSet_other by congruence.
      apply in_app_or in Hc. destruct Hc as [Hc|[<-|[]]]; [now apply Hdom|now elim Hne].
Qed.

Lemma fold_dedupStep_dominates (chunks : list RetrievedChunk.t) :
  Forall notNaN chunks ->
  forall met seen,
    Forall notNaN (map snd seen) -> dominates met seen ->
    dominates (met ++ chunks) (fold_left dedupStep chunks seen).
Proof.
  induction 1 as [|chunk chunks Hchunk Hchunks IH]; intros met seen Hseen Hdom; simpl.
  - now rewrite app_nil_r.
  - replace (met ++ chunk :: chunks)%list with ((met ++ [chunk]) ++ chunks)%list
      by now rewrite <- app_assoc.
    apply IH; [now apply dedupStep_notNaN|now apply dedupStep_dominates].
Qed.

(** X17.  No score is lost to a lower one.  When no score is NaN, every chunk
    of the list has a survivor with its fingerprint whose score is at
    least its own. *)
Theorem deduplicate_keeps_highest_score :
  forall chunks : list RetrievedChunk.t,
    Forall notNaN chunks ->
    forall c,
      In c chunks ->
      exists s,
        In s (deduplicate chunks)
        /\ fingerprintOf s = fingerprintOf c
        /\ PrimFloat.leb (RetrievedChunk.score c) (RetrievedChunk.score s) = true.
Proof.
  intros chunks Hnan c Hc.
  destruct (fold_dedupStep_dominates chunks Hnan [] [] (Forall_nil _)
              (fun c (H : In c []) => match H with end) c Hc) as (v & Hv & Hle).
  apply mapGet_in in Hv. exists v. split; [|split; [|exact Hle]].
  - unfold deduplicate. apply in_map_iff. now exists (fingerprintOf c, v).
  - destruct (deduplicate_complete chunks) as (_ & Hkept & _).
    apply (keptFrom_fingerprint chunks). now apply Hkept.
Qed.

End DeduplicationFacts.

(** ** Retrieval service: reranking and the pipeline *)

Section RerankFacts.
Import JS RetrievalService Spec.

Lemma reassignRanksFrom_withoutRank (i : nat) (l : list RetrievedChunk.t) :
  map withoutRank (reassignRanksFrom i l) = map withoutRank l.
Proof.
  revert i. induction l as [|c r IH]; intros i; simpl; [reflexivity|].
  f_equal. apply IH.
Qed.

(** X18.  Reranking loses and invents nothing: but for the ranks, its output
    is a permutation of its input. *)
Theorem rerank_permutes :
  forall (chunks : list RetrievedChunk.t) (query : AnalyzedQuery.t),
    Permutation (map withoutRank (rerank chunks query)) (map withoutRank chunks)
    /\ List.length (rerank chunks query) = List.length chunks.
Proof.
  intros chunks query. unfold rerank. split.
  - rewrite reassignRanksFrom_withoutRank. apply Permutation_map, sort_perm.
  - rewrite <- (length_map withoutRank), reassignRanksFrom_withoutRank, length_map.
    apply sort_length.
Qed.





Lemma StronglySorted_app_one {A : Type} (R : A -> A -> Prop) (l : list A) (x : A) :
  StronglySorted R l -> (forall v, In v l -> R v x) -> StronglySorted R (l ++ [x]).
Proof.
  induction 1 as [|a l Hl IH Ha]; intros Hx; simpl.
  - repeat constructor.
  - constructor.
    + apply IH. intros v Hv. apply Hx. now right.
    + apply Forall_app. split; [exact Ha|]. repeat constructor. apply Hx. now left.
Qed.

Lemma StronglySorted_firstn {A : Type} (R : A -> A -> Prop) (n : nat) (l : list A) :
  StronglySorted R l -> StronglySorted R (firstn n l).
Proof.
  intros H. revert n. induction H as [|a l Hl IH Ha]; intros [|n]; simpl; try constructor.
  - apply IH.
  - rewrite Forall_forall in *. intros x Hx. apply Ha.
    rewrite <- (firstn_skipn n l). apply in_or_app. now left.
Qed.

Lemma nonIncreasing_StronglySorted (l : list RetrievedChunk.t) :
  Forall notNaN l -> nonIncreasing (scores l) -> StronglySorted scoresAtLeast l.
Proof.
  intros Hnan Hs. apply Sorted_StronglySorted.
  - intros x y z Hxy Hyz. unfold scoresAtLeast in *. now apply (leb_trans _ _ _ Hyz).
  - induction l as [|a [|b r] IH]; [constructor|repeat constructor|].
    destruct Hs as [Hba Hs]. inversion Hnan; subst.
    constructor; [now apply IH|]. constructor. exact Hba.
Qed.

Lemma StronglySorted_nonIncreasing (l : list RetrievedChunk.t) :
  StronglySorted scoresAtLeast l -> nonIncreasing (scores l).
Proof.
  induction 1 as [|a l Hl IH Ha]; [exact I|].
  destruct l as [|b r]; [exact I|]. split; [|exact IH].
  inversion Ha; subst. assumption.
Qed.

(** Deduplication of a list in non-increasing order never replaces a
    chunk, and its survivors are in non-increasing order again. *)
Lemma fold_dedupStep_sorted (chunks : list RetrievedChunk.t) :
  StronglySorted scoresAtLeast chunks ->
  forall seen,
    StronglySorted scoresAtLeast (map snd seen) ->
    (forall v c, In v (map snd seen) -> In c chunks -> scoresAtLeast v c) ->
    StronglySorted scoresAtLeast (map snd (fold_left dedupStep chunks seen)).
Proof.
  induction 1 as [|chunk chunks Hchunks IH Hchunk]; intros seen Hseen Hall; [exact Hseen|].
  cbn [fold_left]. unfold dedupStep at 2. fold (fingerprintOf chunk).
  destruct (mapGet (fingerprintOf chunk) seen) as [existing|] eqn:Hget.
  - assert (Hle : scoresAtLeast existing chunk).
    { apply Hall; [|now left]. apply mapGet_in in Hget.
      apply in_map_iff. now exists (fingerprintOf chunk, existing). }
    unfold gt. rewrite (leb_not_ltb _ _ Hle).
    apply IH; [exact Hseen|]. intros v c Hv Hc. apply Hall; [exact Hv|now right].
  - rewrite (mapSet_absent _ _ _ (mapGet_absent _ _ Hget)).
    apply IH.
    + rewrite map_app. apply StronglySorted_app_one; [exact Hseen|].
      intros v Hv. apply Hall; [exact Hv|now left].
    + intros v c Hv Hc. rewrite map_app in Hv. apply in_app_or in Hv.
      destruct Hv as [Hv|[<-|[]]]; [apply Hall; [exact Hv|now right]|].
      rewrite Forall_forall in Hchunk. now apply Hchunk.
Qed.








(** X21.  Best first.  With reranking enabled and no score being NaN, the
    chunks [retrieve] makes of the search results come in non-increasing
    order of their scores, also after deduplication and truncation. *)
Theorem rankResults_scores_non_increasing :
  forall (query : AnalyzedQuery.t) (opts : RetrievalOptions.t)
         (results : list SearchResult.t),
    isTrue (RetrievalOptions.rerank opts) = true ->
    Forall (fun r => PrimFloat.is_nan (calculateScore r query) = false) results ->
    nonIncreasing (scores (rankResults query opts results)).
Proof.
  intros query opts results Hrerank Hnan. unfold rankResults. rewrite Hrerank.
  assert (Hfirst : Forall notNaN (toChunksFrom 0 query results)).
  { generalize 0. induction Hnan as [|r rest Hr Hrest IH]; intros i; simpl; constructor; auto. }
  assert (Hranked : StronglySorted scoresAtLeast (rerank (toChunksFrom 0 query results) query)).
  { apply nonIncreasing_StronglySorted.
    - unfold rerank. apply Forall_forall. intros c Hc.
      assert (Hin : In (RetrievedChunk.score c)
                       (scores (sort scoreAfter (toChunksFrom 0 query results))))
        by (rewrite <- (reassignRanksFrom_scores 0); now apply in_map).
      apply in_map_iff in Hin. destruct Hin as (d & Hscore & Hd).
      unfold notNaN. rewrite <- Hscore.
      pose proof (sort_Forall notNaN scoreAfter _ Hfirst) as Hsorted.
      rewrite Forall_forall in Hsorted. now apply Hsorted.
    - unfold rerank. rewrite reassignRanksFrom_scores. now apply sort_nonIncreasing. }
  apply StronglySorted_nonIncreasing.
  assert (Hkept : StronglySorted scoresAtLeast
                    (if isTrue (RetrievalOptions.deduplicate opts)
                     then deduplicate (rerank (toChunksFrom 0 query results) query)
                     else rerank (toChunksFrom 0 query results) query)).
  { destruct (isTrue (RetrievalOptions.deduplicate opts)); [|exact Hranked].
    unfold deduplicate. apply fold_dedupStep_sorted; [exact Hranked|constructor|].
    intros v c []. }
  destruct (RetrievalOptions.limit opts); [now apply StronglySorted_firstn|exact Hkept].
Qed.

End RerankFacts.

(** ** Retrieval service: fingerprints *)

Section FingerprintFacts.
Import JS RetrievalService Spec.

Lemma toLowerCase_idempotent (s : string) : toLowerCase (toLowerCase s) = toLowerCase s.
Proof.
  induction s as [|c r IH]; simpl; [reflexivity|]. now rewrite lowerChar_idempotent, IH.
Qed.

Lemma toLowerCase_collapseFrom (inRun : bool) (s : string) :
  toLowerCase (collapseFrom inRun s) = collapseFrom inRun (toLowerCase s).
Proof.
  revert inRun. induction s as [|c r IH]; intros inRun; simpl; [reflexivity|].
  rewrite lowerChar_space. destruct (isSpace c); [destruct inRun|]; simpl; now rewrite IH.
Qed.

Lemma collapseFrom_fixed (inRun : bool) (s : string) :
  singleSpacedFrom inRun s = true -> collapseFrom inRun s = s.
Proof.
  revert inRun. induction s as [|c r IH]; intros inRun H; simpl in *; [reflexivity|].
  destruct (isSpace c).
  - apply andb_true_iff in H. destruct H as [H Hr].
    apply andb_true_iff in H. destruct H as [Hc Hrun].
    apply Ascii.eqb_eq in Hc. subst c. destruct inRun; [discriminate|].
    now rewrite IH.
  - now rewrite IH.
Qed.

(** X22.  Fingerprints ignore case and the amount of white space: a content,
    its lower case and the content with every run of white space replaced
    by one space have the same fingerprint. *)
Theorem createFingerprint_insensitive :
  forall content : string,
    createFingerprint (toLowerCase content) = createFingerprint content
    /\ createFingerprint (collapseWhitespace content) = createFingerprint content.
Proof.
  intros content. unfold createFingerprint, collapseWhitespace. split.
  - now rewrite toLowerCase_idempotent.
  - rewrite toLowerCase_collapseFrom.
    now rewrite (collapseFrom_fixed false (collapseFrom false (toLowerCase content)))
      by apply singleSpaced_collapseFrom.
Qed.




End FingerprintFacts.

(** ** Prompt builder: selection and labels *)

Section PromptSelectionFacts.
Import JS PromptBuilder Spec.
Variable toFixed1 : float -> string.

Lemma selectFrom_all (chunks : list RetrievedChunk.t) :
  forall selectedCount estimatedTokens,
    (forall pre x post,
        chunks = (pre ++ x :: post)%list ->
        0 < selectedCount + List.length pre ->
        estimatedTokens + totalTokens pre + chunkTokens x <= MAX_CONTEXT_TOKENS) ->
    selectFrom selectedCount estimatedTokens chunks = chunks.
Proof.
  induction chunks as [|chunk chunks IH]; intros n acc Hfit; [reflexivity|].
  cbn [selectFrom].
  destruct ((MAX_CONTEXT_TOKENS <? acc + chunkTokens chunk) && (0 <? n)) eqn:Hstop.
  - apply andb_true_iff in Hstop. destruct Hstop as [Hover Hsome].
    apply Nat.ltb_lt in Hover. apply Nat.ltb_lt in Hsome.
    specialize (Hfit [] chunk chunks eq_refl). unfold totalTokens in Hfit. simpl in Hfit. lia.
  - f_equal. apply IH. intros pre x post Hsplit Hpos.
    specialize (Hfit (chunk :: pre) x post). rewrite Hsplit in Hfit.
    specialize (Hfit eq_refl). unfold totalTokens in *. simpl in *. lia.
Qed.

Lemma totalTokens_prefix (pre : list RetrievedChunk.t) x post :
  totalTokens pre + chunkTokens x <= totalTokens (pre ++ x :: post).
Proof.
  rewrite totalTokens_app. unfold totalTokens. simpl. lia.
Qed.

(** X24.  Nothing is left out without need: when the token estimates of all
    the chunks sum to at most 4000, [build] includes all of them, in
    their order; and selecting again from the included chunks includes
    all of them. *)
Theorem build_includes_all_that_fit :
  forall (query : AnalyzedQuery.t) (chunks : list RetrievedChunk.t)
         (format : ResponseFormat),
    (totalTokens chunks <= 4000 ->
     BuiltPrompt.contextChunks (build toFixed1 query chunks format) = chunks)
    /\ selectChunks (selectChunks chunks) = selectChunks chunks.
Proof.
  intros query chunks format. split.
  - intros Hfit. cbn [build BuiltPrompt.contextChunks]. unfold selectChunks.
    apply selectFrom_all. intros pre x post -> _.
    pose proof (totalTokens_prefix pre x post). change MAX_CONTEXT_TOKENS with 4000. lia.
  - destruct (selectFrom_spec chunks 0 0) as (rest & _ & Hin & _).
    fold (selectChunks chunks) in Hin.
    unfold selectChunks at 1. apply selectFrom_all.
    intros pre x post Hsplit Hpos. now apply (Hin pre x post).
Qed.

Lemma prefix_app_r (x s b : string) :
  String.prefix x s = true -> String.prefix x (s ++ b) = true.
Proof.
  revert s. induction x as [|c x IH]; intros s H; [now destruct (s ++ b)%string|].
  destruct s as [|d s]; simpl in *; [discriminate|].
  destruct (ascii_dec c d); [now apply IH|discriminate].
Qed.

Lemma includes_app_r (s b x : string) : includes s x = true -> includes (s ++ b) x = true.
Proof.
  induction s as [|c s IH]; intros H.
  - rewrite includes_unfold in H. rewrite orb_false_r in H.
    rewrite includes_unfold. now rewrite (prefix_app_r x EmptyString b H).
  - rewrite includes_unfold in H. apply orb_true_iff in H.
    rewrite includes_unfold. destruct H as [H|H].
    + now rewrite (prefix_app_r x (String c s) b H).
    + cbn [String.append]. rewrite (IH H). apply orb_true_r.
Qed.

Lemma sectionsFrom_nth (chunks : list RetrievedChunk.t) :
  forall index k chunk,
    nth_error chunks k = Some chunk ->
    nth_error (sectionsFrom toFixed1 index chunks) k
    = Some (sourceSection toFixed1 (index + k) chunk).
Proof.
  induction chunks as [|c rest IH]; intros index k chunk H; [now destruct k|].
  destruct k as [|k]; simpl in *.
  - injection H as <-. now rewrite Nat.add_0_r.
  - rewrite (IH (S index) k chunk H). do 2 f_equal. lia.
Qed.

(** X25.  The labels of the prompt and the numbers of the citations agree.  The
    chunk at index [k] of the included chunks is rendered in the user
    prompt under the label [Source k+1], with its content, and the number
    [k+1] of a citation marker is resolved to this very chunk. *)
Theorem build_source_labels_match_citations :
  forall (query : AnalyzedQuery.t) (chunks : list RetrievedChunk.t)
         (format : ResponseFormat) (k : nat) (chunk : RetrievedChunk.t),
    let prompt := build toFixed1 query chunks format in
    nth_error (BuiltPrompt.contextChunks prompt) k = Some chunk ->
    includes (BuiltPrompt.userPrompt prompt) (sourceSection toFixed1 k chunk) = true
    /\ ResponseProcessor.chunkAt (BuiltPrompt.contextChunks prompt) (N.of_nat (k + 1))
       = Some chunk.
Proof.
  intros query chunks format k chunk prompt Hnth. split.
  - subst prompt. cbn [build BuiltPrompt.userPrompt BuiltPrompt.contextChunks] in *.
    unfold buildUserPrompt. apply includes_app_r.
    unfold buildContextSection.
    destruct (selectChunks chunks) as [|first kept] eqn:Hsel; [now destruct k|].
    rewrite <- Hsel in *. apply includes_app_l, includes_app_l, includes_app_l.
    apply includes_join. apply (nth_error_In _ k).
    now rewrite (sectionsFrom_nth _ 0 k chunk Hnth).
  - unfold ResponseProcessor.chunkAt.
    destruct (N.of_nat (k + 1)) as [|p] eqn:Hp; [lia|].
    replace (Pos.to_nat p - 1) with k by lia. exact Hnth.
Qed.

End PromptSelectionFacts.

(** ** Query engine: the pipeline *)

Section QueryPipelineFacts.
Import JS QueryEngine.
Variable toFixed1 : float -> string.

Ltac run_query :=
  cbn [run respond readsAfter observe fst snd app].

(** X26.  What [query] answers when a step fails.  When retrieval fails with the
    message [e], the LLM service is not called; when retrieval returns
    chunks and the generation fails with [e], both services were called
    once.  In both cases the result is a failure with an empty answer, no
    sources, the confidence [insufficient], the error [e], and a retrieval
    time of 0, also when retrieval had succeeded. *)
Theorem query_failure_reports_error :
  forall (w : World) (reads : nat) (question : string) (options : QueryOptions.t)
         (e : string),
    let opts := QueryOptions.spread DEFAULT_QUERY_OPTIONS options in
    let analyzed := QueryAnalyzer.analyze question in
    let outcome := run w (query toFixed1 question options) reads in
    let failure (elapsed : Z) :=
      QueryResult.mk false EmptyString [] insufficient
        (QueryMetadata.mk elapsed 0 0 0 None None) (Some e) in
    (retrieval w analyzed (retrievalOptionsOf opts) = Throws e ->
     outcome
     = (failure (clock w (2 + reads) - clock w reads)%Z,
        [Retrieved analyzed (retrievalOptionsOf opts)]))
    /\ (forall chunk chunks,
          let prompt :=
            BuiltPrompt.userPrompt
              (PromptBuilder.build toFixed1 analyzed (chunk :: chunks) (formatOf opts)) in
          let llmOptions :=
            LLMOptions.mk (QueryOptions.temperature opts) (QueryOptions.maxTokens opts) None in
          retrieval w analyzed (retrievalOptionsOf opts) = Returns (chunk :: chunks) ->
          generation w prompt llmOptions = Throws e ->
          outcome
          = (failure (clock w (4 + reads) - clock w reads)%Z,
             [Retrieved analyzed (retrievalOptionsOf opts); Generated prompt llmOptions])).
Proof.
  intros w reads question options e opts analyzed outcome failure. split.
  - intros Hretrieval. subst outcome. unfold query, failed. run_query.
    fold opts analyzed. rewrite Hretrieval. run_query. reflexivity.
  - intros chunk chunks prompt llmOptions Hretrieval Hgeneration.
    subst outcome. unfold query, failed. run_query.
    fold opts analyzed. rewrite Hretrieval. run_query.
    fold prompt llmOptions. rewrite Hgeneration. run_query. reflexivity.
Qed.


(** X28.  The [format] option has no effect on a query: the system prompt, the
    only part of the built prompt that depends on the format, is never
    sent to the LLM service, so two calls that differ in the format only
    make the same service calls and return the same result. *)
Theorem query_ignores_format :
  forall (w : World) (reads : nat) (question : string)
         (projectId : option string) (format format' : option ResponseFormat)
         (temperature : option float) (maxTokens : option nat)
         (includeSources : option bool),
    run w (query toFixed1 question
             (QueryOptions.mk projectId format temperature maxTokens includeSources)) reads
    = run w (query toFixed1 question
               (QueryOptions.mk projectId format' temperature maxTokens includeSources)) reads.
Proof.
  intros w reads question projectId format format' temperature maxTokens includeSources.
  unfold query, failed. run_query.
  unfold retrievalOptionsOf. cbn [QueryOptions.spread QueryOptions.projectId
    QueryOptions.temperature QueryOptions.maxTokens QueryOptions.includeSources].
  destruct (retrieval w _ _) as [[|chunk chunks]|reason]; run_query; [reflexivity| |reflexivity].
  cbn [PromptBuilder.build BuiltPrompt.userPrompt BuiltPrompt.contextChunks].
  destruct (generation w _ _) as [llmResponse|reason]; run_query; reflexivity.
Qed.

End QueryPipelineFacts.

(** ** The properties at work *)

Lemma chat_outcome_witness :
  Spec.responds [] noLLMOptions rejectingProvider = false.
Proof.
  exact (proj1 (chat_outcome [offlineProvider; rejectingProvider] [] noLLMOptions)
           rejectingProvider (or_intror (or_introl eq_refl))).
Defined.

Lemma extractCitations_resolves_positions_witness :
  let citation :=
    SourceCitation.mk 1%N "chunk-a" "doc-1" "JWT tokens are issued on login." 0.9%float in
  (1 <= SourceCitation.number citation <= 2)%N.
Proof.
  intros citation.
  assert (Hin : In citation
                  (ResponseProcessor.extractCitations "Tokens are issued on login [source:1]."
                     [exampleChunkA; exampleChunkB]))
    by (vm_compute; left; reflexivity).
  exact (proj1 (proj2 (extractCitations_resolves_positions _ _ citation Hin))).
Defined.

Lemma extractKeywords_alphanumeric_witness :
  Spec.allChars Spec.isKeywordChar "authentication" = true.
Proof.
  assert (Hin : In "authentication"
                  (QueryAnalyzer.extractKeywords "what is the authentication flow"))
    by (vm_compute; right; left; reflexivity).
  exact (proj2 (proj1 (extractKeywords_alphanumeric "what is the authentication flow")
                  "authentication" Hin)).
Defined.

Lemma detectIntent_first_match_witness :
  exists before regexes after,
    QueryAnalyzer.patterns
    = (before ++ (QueryAnalyzer.detectIntent "pros and cons of jwt", regexes) :: after)%list
    /\ Spec.anyMatches regexes "pros and cons of jwt" = true
    /\ forall intent rs,
         In (intent, rs) before -> Spec.anyMatches rs "pros and cons of jwt" = false.
Proof.
  exact (detectIntent_first_match "pros and cons of jwt").
Defined.

Lemma deduplicate_one_per_fingerprint_witness :
  exists s,
    In s (RetrievalService.deduplicate [exampleChunkB; exampleChunkA])
    /\ Spec.fingerprintOf s = Spec.fingerprintOf exampleChunkB.
Proof.
  exact (proj1 (proj2 (deduplicate_one_per_fingerprint [exampleChunkB; exampleChunkA]))
           exampleChunkB (or_introl eq_refl)).
Defined.

Lemma deduplicate_survivors_from_input_witness :
  let survivor := RetrievalService.withDuplicateOf exampleChunkA "chunk-b" in
  exists c,
    In c [exampleChunkB; exampleChunkA]
    /\ (survivor = c
        \/ exists e,
             In e [exampleChunkB; exampleChunkA]
             /\ Spec.fingerprintOf e = Spec.fingerprintOf c
             /\ JS.gt (RetrievedChunk.score c) (RetrievedChunk.score e) = true
             /\ survivor = RetrievalService.withDuplicateOf c (RetrievedChunk.chunkId e)).
Proof.
  intros survivor.
  assert (Hin : In survivor (RetrievalService.deduplicate [exampleChunkB; exampleChunkA]))
    by (vm_compute; left; reflexivity).
  exact (deduplicate_survivors_from_input [exampleChunkB; exampleChunkA] survivor Hin).
Defined.


Lemma deduplicate_keeps_highest_score_witness :
  exists s,
    In s (RetrievalService.deduplicate [exampleChunkB; exampleChunkA])
    /\ Spec.fingerprintOf s = Spec.fingerprintOf exampleChunkB
    /\ PrimFloat.leb (RetrievedChunk.score exampleChunkB) (RetrievedChunk.score s) = true.
Proof.
  assert (Hscores : Forall Spec.notNaN [exampleChunkB; exampleChunkA])
    by (repeat (apply Forall_cons; [reflexivity|]); apply Forall_nil).
  exact (deduplicate_keeps_highest_score [exampleChunkB; exampleChunkA] Hscores
           exampleChunkB (or_introl eq_refl)).
Defined.



Lemma rankResults_scores_non_increasing_witness :
  Spec.nonIncreasing
    (Spec.scores
       (RetrievalService.rankResults (QueryAnalyzer.analyze "How are tokens issued?")
          (RetrievalOptions.spread RetrievalService.DEFAULT_RETRIEVAL_OPTIONS
             noRetrievalOptions)
          exampleResults)).
Proof.
  assert (Hscores :
            Forall (fun r =>
                      PrimFloat.is_nan
                        (RetrievalService.calculateScore r
                           (QueryAnalyzer.analyze "How are tokens issued?")) = false)
              exampleResults)
    by (repeat (apply Forall_cons; [vm_compute; reflexivity|]); apply Forall_nil).
  exact (rankResults_scores_non_increasing
           (QueryAnalyzer.analyze "How are tokens issued?")
           (RetrievalOptions.spread RetrievalService.DEFAULT_RETRIEVAL_OPTIONS
              noRetrievalOptions)
           exampleResults eq_refl Hscores).
Defined.

Lemma build_includes_all_that_fit_witness :
  BuiltPrompt.contextChunks
    (PromptBuilder.build JS.toFixed1 (QueryAnalyzer.analyze "How are tokens issued?")
       [exampleChunkA; exampleChunkB] markdown)
  = [exampleChunkA; exampleChunkB].
Proof.
  apply (proj1 (build_includes_all_that_fit JS.toFixed1
                  (QueryAnalyzer.analyze "How are tokens issued?")
                  [exampleChunkA; exampleChunkB] markdown)).
  apply Nat.leb_le. vm_compute. reflexivity.
Defined.

Lemma build_source_labels_match_citations_witness :
  let prompt :=
    PromptBuilder.build JS.toFixed1 (QueryAnalyzer.analyze "How are tokens issued?")
      [exampleChunkA; exampleChunkB] markdown in
  JS.includes (BuiltPrompt.userPrompt prompt) (Spec.sourceSection JS.toFixed1 1 exampleChunkB)
  = true
  /\ ResponseProcessor.chunkAt (BuiltPrompt.contextChunks prompt) 2%N = Some exampleChunkB.
Proof.
  intros prompt.
  assert (Hnth : nth_error (BuiltPrompt.contextChunks prompt) 1 = Some exampleChunkB)
    by reflexivity.
  exact (build_source_labels_match_citations JS.toFixed1
           (QueryAnalyzer.analyze "How are tokens issued?")
           [exampleChunkA; exampleChunkB] markdown 1 exampleChunkB Hnth).
Defined.

Lemma query_failure_reports_error_witness :
  let w :=
    QueryEngine.mkWorld (fun n => Z.of_nat (5 * n))
      (fun _ _ => JS.Throws "Vector store not initialized")
      (fun _ _ => JS.Throws "not reached") in
  let outcome :=
    QueryEngine.run w
      (QueryEngine.query JS.toFixed1 "How are tokens issued?"
         (QueryOptions.mk None None None None None)) 0 in
  QueryResult.error (fst outcome) = Some "Vector store not initialized"
  /\ List.length (snd outcome) = 1.
Proof.
  intros w outcome. subst outcome.
  rewrite (proj1 (query_failure_reports_error JS.toFixed1 w 0 "How are tokens issued?"
                    (QueryOptions.mk None None None None None)
                    "Vector store not initialized") eq_refl).
  split; reflexivity.
Defined.

